(** * sentinelproc: the Sentinel-1 backscatter script [process_scene.py]

    A shallow embedding of the script's cells and the properties its
    specification states about them.

    - Samples are IEEE binary64 numbers ([PrimFloat.float], numpy's
      [float64]); comparisons and arithmetic are the primitive ones.
    - [np.log10] is library code.  Its behaviour on the special values
      (NaN, negative numbers, zeros, infinity) is fixed by IEEE 754 / numpy
      and is written out; its value on a positive finite number is the
      parameter [log10_finite].
    - numpy arrays are objects in a store; a variable holds a reference.
      [copy] allocates, a masked assignment updates in place. *)

From Stdlib Require Import ZArith Floats Lia.
From stdpp Require Import base option list strings pretty.

Set Warnings "-inexact-float,-register-all".
Set Default Proof Using "Type".

(** ** numpy arrays *)

Module Np.

(** A two-dimensional array, row major. *)
Abbreviation ndarray A := (list (list A)).

Definition shape {A} (a : ndarray A) : list nat := length <$> a.

Definition get2 {A} (a : ndarray A) (i j : nat) : option A :=
  row ← a !! i; row !! j.

(** [f(a)] for a ufunc [f], and [a op b] element by element. *)
Definition amap {A B} (f : A → B) (a : ndarray A) : ndarray B :=
  (λ row : list A, f <$> row) <$> a.

Definition azip {A B C} (f : A → B → C) (a : ndarray A) (b : ndarray B)
  : ndarray C :=
  zip_with (zip_with f) a b.

(** The [height] x [width] array whose cell [(i, j)] is [f i j]. *)
Definition tabulate2 {A} (height width : nat) (f : nat → nat → A)
  : ndarray A :=
  (λ i, f i <$> seq 0 width) <$> seq 0 height.

(** An array object is a float array or a boolean array. *)
Inductive array :=
| FloatArr (a : ndarray float)
| BoolArr (a : ndarray bool).

End Np.
Export Np.

(** ** The object store and the monad of the script's statements *)

Abbreviation ref := nat.
Abbreviation heap := (list array).

(** A statement maps a store to a result and a store, or raises ([None]). *)
Definition M (A : Type) : Type := heap → option (A * heap).

#[global] Instance M_ret : MRet M := λ A a h, Some (a, h).
#[global] Instance M_bind : MBind M := λ A B f m h,
  match m h with
  | Some (a, h') => f a h'
  | None => None
  end.

Definition raise {A} : M A := λ _, None.

Definition alloc (v : array) : M ref := λ h, Some (length h, h ++ [v]).

Definition load_float (r : ref) : M (ndarray float) := λ h,
  match h !! r with
  | Some (FloatArr a) => Some (a, h)
  | _ => None
  end.

Definition load_bool (r : ref) : M (ndarray bool) := λ h,
  match h !! r with
  | Some (BoolArr a) => Some (a, h)
  | _ => None
  end.

Definition store (r : ref) (v : array) : M () := λ h,
  if decide (r < length h) then Some ((), <[r := v]> h) else None.

(** Reading the store, outside the monad. *)
Definition float_at (h : heap) (r : ref) (i j : nat) : option float :=
  match h !! r with
  | Some (FloatArr a) => get2 a i j
  | _ => None
  end.

Definition bool_at (h : heap) (r : ref) (i j : nat) : option bool :=
  match h !! r with
  | Some (BoolArr a) => get2 a i j
  | _ => None
  end.

(** ** The raster returned by [rasterio.open] *)

(** An opened dataset: every band has the dataset's height and width.
    [bands !! (k-1)] gives the samples of band [k]. *)
Record DatasetReader := {
  height : nat;
  width : nat;
  bands : list (nat → nat → float)
}.

(** [src.read(k)]: bands are numbered from 1; an index outside the
    dataset raises [IndexError]. *)
Definition read (src : DatasetReader) (k : nat) : M ref :=
  match k with
  | O => raise
  | S k' =>
      match bands src !! k' with
      | Some f => alloc (FloatArr (tabulate2 (height src) (width src) f))
      | None => raise
      end
  end.

(** ** numpy operations used by the script *)

Section Numpy.

(** The value [np.log10] returns on a positive finite number. *)
Variable log10_finite : float → float.

Local Open Scope float_scope.

(** [np.log10] on one sample: NaN and negative numbers give NaN, a zero
    gives minus infinity, plus infinity gives plus infinity. *)
Definition log10 (x : float) : float :=
  if is_nan x then nan
  else if x <? 0 then nan
  else if x =? 0 then neg_infinity
  else if x =? infinity then infinity
  else log10_finite x.

(** The decibel conversion of one sample, [10 * np.log10(x + 1e-10)]. *)
Definition dB (x : float) : float := 10 * log10 (x + 1e-10).

Definition np_add_scalar (r : ref) (c : float) : M ref :=
  a ← load_float r; alloc (FloatArr (amap (λ x, x + c) a)).

Definition np_log10 (r : ref) : M ref :=
  a ← load_float r; alloc (FloatArr (amap log10 a)).

Definition np_rmul_scalar (c : float) (r : ref) : M ref :=
  a ← load_float r; alloc (FloatArr (amap (λ x, c * x) a)).

Definition np_eq_scalar (r : ref) (c : float) : M ref :=
  a ← load_float r; alloc (BoolArr (amap (λ x, x =? c) a)).

Definition np_lt_scalar (r : ref) (c : float) : M ref :=
  a ← load_float r; alloc (BoolArr (amap (λ x, x <? c) a)).

(** [a | b] on boolean arrays of one shape (the masks of one raster;
    other shapes raise here, broadcasting is not modelled). *)
Definition np_or (r1 r2 : ref) : M ref :=
  a ← load_bool r1;
  b ← load_bool r2;
  if decide (shape a = shape b)
  then alloc (BoolArr (azip orb a b))
  else raise.

(** [a.copy()]: a new object with the same contents. *)
Definition np_copy (r : ref) : M ref :=
  a ← load_float r; alloc (FloatArr a).

(** [a[mask] = v]: in place, on the object [a] refers to. *)
Definition np_setitem_mask (r rm : ref) (v : float) : M () :=
  a ← load_float r;
  m ← load_bool rm;
  if decide (shape a = shape m)
  then store r (FloatArr (azip (λ x (b : bool), if b then v else x) a m))
  else raise.

(** ** Cell 5: band math, masks and display arrays (lines 128-156) *)

(** The variables of the cell, each a reference into the store. *)
Record Vars := {
  vv_band_linear : ref;
  vh_band_linear : ref;
  datamask : ref;
  vv_band_db : ref;
  vh_band_db : ref;
  nodata_mask : ref;
  vv_noise_mask : ref;
  vh_noise_mask : ref;
  vv_invalid_mask : ref;
  vh_invalid_mask : ref;
  vv_display : ref;
  vh_display : ref
}.

(** The variables bound by lines 128-141. *)
Record Bands := {
  b_vv_linear : ref;
  b_vh_linear : ref;
  b_datamask : ref;
  b_vv_db : ref;
  b_vh_db : ref;
  b_nodata : ref;
  b_vv_noise : ref;
  b_vh_noise : ref;
  b_vv_invalid : ref;
  b_vh_invalid : ref
}.

(** [10 * np.log10(r + 1e-10)], with its two temporaries. *)
Definition to_db (r : ref) : M ref :=
  t1 ← np_add_scalar r 1e-10;
  t2 ← np_log10 t1;
  np_rmul_scalar 10 t2.

Definition band_math (src : DatasetReader) : M Bands :=
  vv_lin ← read src 1;
  vh_lin ← read src 2;
  dm ← read src 3;
  vv_db ← to_db vv_lin;
  vh_db ← to_db vh_lin;
  nodata ← np_eq_scalar dm 0;
  vv_noise ← np_lt_scalar vv_db (-22);
  vh_noise ← np_lt_scalar vh_db (-22);
  vv_inv ← np_or nodata vv_noise;
  vh_inv ← np_or nodata vh_noise;
  mret {| b_vv_linear := vv_lin; b_vh_linear := vh_lin; b_datamask := dm;
          b_vv_db := vv_db; b_vh_db := vh_db; b_nodata := nodata;
          b_vv_noise := vv_noise; b_vh_noise := vh_noise;
          b_vv_invalid := vv_inv; b_vh_invalid := vh_inv |}.

(** Lines 151-156. *)
Definition display_arrays (b : Bands) : M Vars :=
  vv_disp ← np_copy (b_vv_db b);
  vh_disp ← np_copy (b_vh_db b);
  _ ← np_setitem_mask vv_disp (b_vv_invalid b) nan;
  _ ← np_setitem_mask vh_disp (b_vh_invalid b) nan;
  mret {| vv_band_linear := b_vv_linear b; vh_band_linear := b_vh_linear b;
          datamask := b_datamask b;
          vv_band_db := b_vv_db b; vh_band_db := b_vh_db b;
          nodata_mask := b_nodata b;
          vv_noise_mask := b_vv_noise b; vh_noise_mask := b_vh_noise b;
          vv_invalid_mask := b_vv_invalid b;
          vh_invalid_mask := b_vh_invalid b;
          vv_display := vv_disp; vh_display := vh_disp |}.

Definition cell5 (src : DatasetReader) : M Vars :=
  b ← band_math src; display_arrays b.

End Numpy.

(** ** The script as a whole *)

(** A Python exception: whether it is an instance of [Exception] (what
    [except Exception] catches; [KeyboardInterrupt] and [SystemExit] are
    not), and [str(e)]. *)
Record exn := { exn_is_Exception : bool; exn_str : string }.

Inductive result (A : Type) :=
| Ok (a : A)
| Raise (e : exn).
Arguments Ok {A} a.
Arguments Raise {A} e.

Record Response := { status_code : Z; content : list Byte.byte }.

Definition coord : Type := float * float.

(** The geometries a shapefile row can hold.  [Polygon] has an exterior
    ring and interior rings; the multi-part kinds have no [coords]. *)
Inductive geometry :=
| Polygon (exterior : list coord) (interiors : list (list coord))
| LineString (coords : list coord)
| MultiPart (parts : list geometry).

Inductive code := MOVETO | LINETO | CLOSEPOLY.

(** [matplotlib.path.Path]: vertices and their codes. *)
Record Path := { vertices : list coord; codes : list code }.

(** What the script does to the outside, in order. *)
Inductive event :=
| Print (line : string)
| FetchToken (client_id client_secret : option string)
| ReadFile (name : string)
| Post (token : option string)
| RasterOpen (image : list Byte.byte)
| Imshow (axis : nat) (image : ndarray float)
| AddPatch (axis : nat) (p : Path)
| Show
| RasterClose.

(** Everything the script obtains from outside. *)
Record World := {
  (** [os.environ] after [load_dotenv()] *)
  environ : string → option string;
  (** [oauth.fetch_token(...)] *)
  fetch_token : option string → option string → result string;
  (** the contents of [evalscript.js] *)
  evalscript_js : result string;
  (** [oauth.post(url, json=payload)], by the session's token and the
      evalscript of the payload (the rest of the payload is constant) *)
  post : option string → string → result Response;
  (** [rasterio.open(io.BytesIO(image_bytes))] *)
  rasterio_open : list Byte.byte → result DatasetReader;
  (** [src.count], [src.crs] as printed *)
  crs_str : DatasetReader → string;
  (** [gpd.read_file('input/VL_kinrooi_2023.shp')]: the geometry column *)
  read_shapefile : result (list geometry);
  (** the coordinate transformation EPSG:31370 to EPSG:32631 of [to_crs] *)
  to_utm : coord → coord;
  (** [ax.get_xlim()], [ax.get_ylim()] of the two axes *)
  get_xlim : nat → float * float;
  get_ylim : nat → float * float
}.

(** How a run ends before its last line. *)
Inductive halt :=
| Exit
| Uncaught (e : exn).

(** A script fragment: the events so far and a value or the end. *)
Definition Script (A : Type) : Type := list event * (halt + A).

#[global] Instance Script_ret : MRet Script := λ A a, ([], inr a).
#[global] Instance Script_bind : MBind Script := λ A B f m,
  match m with
  | (t, inl stop) => (t, inl stop)
  | (t, inr a) => let '(t', r) := f a in (t ++ t', r)
  end.

Definition emit (e : event) : Script () := ([e], inr ()).
Definition print (line : string) : Script () := emit (Print line).
Definition exit {A} : Script A := ([], inl Exit).

(** A call to the outside: the event, then the value or the exception. *)
Definition call {A} (e : event) (r : result A) : Script A :=
  match r with
  | Ok a => ([e], inr a)
  | Raise x => ([e], inl (Uncaught x))
  end.

(** [try: body  except Exception as e: handler e]. *)
Definition try_except {A} (body : Script A) (handler : exn → Script A)
  : Script A :=
  match body with
  | (t, inl (Uncaught e)) =>
      if exn_is_Exception e
      then let '(t', r) := handler e in (t ++ t', r)
      else (t, inl (Uncaught e))
  | other => other
  end.

(** [not x] for the values the script tests. *)
Definition not_str (x : option string) : bool :=
  match x with
  | None => true
  | Some s => bool_decide (s = "")
  end.

Definition not_bytes (x : option (list Byte.byte)) : bool :=
  match x with
  | None => true
  | Some [] => true
  | Some (_ :: _) => false
  end.

(** An error raised inside numpy or rasterio while running cell 5. *)
Definition numpy_error : exn :=
  {| exn_is_Exception := true; exn_str := "numpy error" |}.

Definition run_cell {A} (m : M A) : Script (A * heap) :=
  match m [] with
  | Some r => mret r
  | None => ([], inl (Uncaught numpy_error))
  end.

(** *** The vector overlay (lines 168-211) *)

Definition map_geometry (f : coord → coord) : geometry → geometry :=
  fix go g :=
    match g with
    | Polygon ext ints => Polygon (f <$> ext) ((λ ring : list coord, f <$> ring) <$> ints)
    | LineString cs => LineString (f <$> cs)
    | MultiPart ps => MultiPart (go <$> ps)
    end.

Definition not_implemented : exn :=
  {| exn_is_Exception := true;
     exn_str := "Multi-part geometries do not provide a coordinate sequence" |}.
Definition index_error : exn :=
  {| exn_is_Exception := true;
     exn_str := "single positional indexer is out-of-bounds" |}.
Definition value_error : exn :=
  {| exn_is_Exception := true;
     exn_str := "'codes' must be a 1D list or array with the same length of 'vertices'" |}.

(** [shp_utm.geometry.iloc[0]] *)
Definition iloc0 (geoms : list geometry) : result geometry :=
  match geoms with
  | g :: _ => Ok g
  | [] => Raise index_error
  end.

(** Lines 196-200. *)
Definition inner_coords (geom : geometry) : result (list coord) :=
  match geom with
  | Polygon ext _ => Ok ext
  | LineString cs => Ok cs
  | MultiPart _ => Raise not_implemented
  end.

(** Line 202; [[LINETO] * n] is empty for a negative [n]. *)
Definition inner_codes (n : nat) : list code :=
  [MOVETO] ++ replicate (n - 2) LINETO ++ [CLOSEPOLY].

Definition outer_coords (xlim ylim : float * float) : list coord :=
  [(xlim.1, ylim.1); (xlim.2, ylim.1); (xlim.2, ylim.2); (xlim.1, ylim.2);
   (xlim.1, ylim.1)].

Definition outer_codes : list code :=
  [MOVETO; LINETO; LINETO; LINETO; CLOSEPOLY].

(** [Path(vertices, codes)] checks that both have one length. *)
Definition mkPath (vs : list coord) (cs : list code) : result Path :=
  if decide (length vs = length cs)
  then Ok {| vertices := vs; codes := cs |}
  else Raise value_error.

(** Lines 188-209 for one axis. *)
Definition compound_path (shp_utm : list geometry) (xlim ylim : float * float)
  : result Path :=
  match iloc0 shp_utm with
  | Raise e => Raise e
  | Ok geom =>
      match inner_coords geom with
      | Raise e => Raise e
      | Ok inner =>
          mkPath (outer_coords xlim ylim ++ inner)
                 (outer_codes ++ inner_codes (length inner))
      end
  end.

Definition lift_result {A} (r : result A) : Script A :=
  match r with
  | Ok a => mret a
  | Raise e => ([], inl (Uncaught e))
  end.

Section Pipeline.

Variable log10_finite : float → float.
Variable w : World.

Local Open Scope string_scope.

(** Cell 1 (lines 17-26). *)
Definition cell1 : Script (option string * option string) :=
  let CLIENT_ID := environ w "CLIENT_ID" in
  let CLIENT_SECRET := environ w "CLIENT_SECRET" in
  _ ← (if not_str CLIENT_ID || not_str CLIENT_SECRET
       then
         _ ← print "FATAL: CLIENT_ID or CLIENT_SECRET not found.";
         print "Please ensure you have a .env file with your credentials."
       else print "Credentials successfully loaded from .env file.");
  _ ← print "Configuration loaded and ready.";
  mret (CLIENT_ID, CLIENT_SECRET).

(** Cell 2 (lines 30-41); the result is the token the session holds. *)
Definition cell2 (CLIENT_ID CLIENT_SECRET : option string)
  : Script (option string) :=
  try_except
    (token ← call (FetchToken CLIENT_ID CLIENT_SECRET)
                  (fetch_token w CLIENT_ID CLIENT_SECRET);
     _ ← print "Authentication successful. Token obtained.";
     mret (Some token))
    (λ e,
     _ ← print ("Authentication failed: " +:+ exn_str e);
     mret None).

(** Cell 3 (lines 45-104). *)
Definition cell3 : Script string :=
  evalscript ← call (ReadFile "evalscript.js") (evalscript_js w);
  _ ← print "Request payload defined.";
  _ ← print ("Requesting data for BBox: "
             +:+ "[694512.806609, 5666404.740308, 694896.980069, 5666790.60716]"
             +:+ " in time range: "
             +:+ "2023-06-01T00:00:00Z/2023-06-30T23:59:59Z");
  mret evalscript.

(** Cell 4 (lines 108-116): the value of [image_bytes]. *)
Definition cell4 (token : option string) (evalscript : string)
  : Script (option (list Byte.byte)) :=
  response ← call (Post token) (post w token evalscript);
  if (status_code response =? 200)%Z
  then
    let image_bytes := content response in
    _ ← print ("Successfully received image data ("
               +:+ pretty (length image_bytes) +:+ " bytes).");
    mret (Some image_bytes)
  else
    _ ← print ("Request failed: " +:+ pretty (status_code response));
    mret None.

(** Lines 187-211 for the axis [ax]. *)
Definition overlay (shp_utm : list geometry) (ax : nat) : Script () :=
  p ← lift_result (compound_path shp_utm (get_xlim w ax) (get_ylim w ax));
  emit (AddPatch ax p).

(** Cell 5 (lines 120-220). *)
Definition cell5_script (image_bytes : option (list Byte.byte))
  : Script (Vars * heap) :=
  if not_bytes image_bytes
  then
    _ ← print "No image data available for visualization.";
    exit
  else
    let image := default [] image_bytes in
    src ← call (RasterOpen image) (rasterio_open w image);
    _ ← print ("Opened image with " +:+ pretty (length (bands src))
               +:+ " bands.");
    _ ← print ("CRS: " +:+ crs_str w src);
    vh ← run_cell (cell5 log10_finite src);
    let '(v, h) := vh in
    _ ← (match h !! vv_display v with
         | Some (FloatArr a) => emit (Imshow 0 a)
         | _ => ([], inl (Uncaught numpy_error))
         end);
    _ ← (match h !! vh_display v with
         | Some (FloatArr a) => emit (Imshow 1 a)
         | _ => ([], inl (Uncaught numpy_error))
         end);
    shp ← call (ReadFile "input/VL_kinrooi_2023.shp") (read_shapefile w);
    let shp_utm := map_geometry (to_utm w) <$> shp in
    _ ← overlay shp_utm 0;
    _ ← overlay shp_utm 1;
    _ ← emit Show;
    _ ← emit RasterClose;
    mret (v, h).

(** The script, top to bottom. *)
Definition main : Script (Vars * heap) :=
  creds ← cell1;
  token ← cell2 creds.1 creds.2;
  evalscript ← cell3;
  image_bytes ← cell4 token evalscript;
  cell5_script image_bytes.

End Pipeline.

(** ** Values used to state the properties *)

(** Lines 137-141 on one pixel: the mask sample [m] and the dB value [d]. *)
Definition invalid_px (m d : float) : bool := ((m =? 0) || (d <? -22))%float.

(** A band given by its rows (samples outside the rows are 0). *)
Definition of_rows (rows : ndarray float) (i j : nat) : float :=
  default 0%float (get2 rows i j).

(** The synthetic 2x2 raster of the end-to-end scenario: VV, VH, mask. *)
Definition scenario : DatasetReader :=
  {| height := 2; width := 2;
     bands := [ of_rows [[1; 1]; [1; 1]];
                of_rows [[1e-10; 1]; [1; 1]];
                of_rows [[1; 1]; [0; 1]] ]%float |}.

Definition is_post (e : event) : bool :=
  match e with Post _ => true | _ => false end.

Definition is_raster_open (e : event) : bool :=
  match e with RasterOpen _ => true | _ => false end.

Definition is_moveto (c : code) : bool :=
  match c with MOVETO => true | _ => false end.

(** A 1x2 raster whose VV band holds a NaN and a negative sample, with
    the mask set at both pixels. *)
Definition nan_raster : DatasetReader :=
  {| height := 1; width := 2;
     bands := [ of_rows [[nan; -1]];
                of_rows [[1; 1]];
                of_rows [[1; 1]] ]%float |}.

(** *** Example environments *)

Definition demo_environ (name : string) : option string :=
  if decide (name = "CLIENT_ID") then Some "my-client"
  else if decide (name = "CLIENT_SECRET") then Some "my-secret"
  else None.

Definition unit_square : list coord :=
  [(0, 0); (1, 0); (1, 1); (0, 1); (0, 0)]%float.

(** An environment given by its variables, the outcome of the token
    exchange and the response to the request. *)
Definition demo_world (env : string → option string) (tok : result string)
    (resp : Response) : World :=
  {| environ := env;
     fetch_token := λ _ _, tok;
     evalscript_js := Ok "//VERSION=3";
     post := λ _ _, Ok resp;
     rasterio_open := λ _, Ok scenario;
     crs_str := λ _, "EPSG:32631";
     read_shapefile := Ok [Polygon unit_square []];
     to_utm := λ c, c;
     get_xlim := λ _, (0, 2)%float;
     get_ylim := λ _, (0, 2)%float |}.

Definition connection_error : exn :=
  {| exn_is_Exception := true; exn_str := "Connection refused" |}.

(** ** A reference logarithm *)

(** [np.log10] is not part of the repository; the properties below hold
    for every [log10_finite], some of them under bounds on a few of its
    values.  [log10_ref] is one such function, used to run the scenario
    and to show that those bounds can be met. *)

(** Sum of [t2^i / (c + 2 i)] for [i < n], by Horner's rule: the series
    of [atanh t / t] at [t2 = t^2]. *)
Fixpoint atanh_series (n : nat) (c t2 : float) : float :=
  match n with
  | O => 0
  | S n' => 1 / c + t2 * atanh_series n' (c + 2) t2
  end%float.

(** A base-10 logarithm of a positive finite number, computed in
    binary64: [x = m * 2^k] with [m] between [sqrt 1/2] and [sqrt 2],
    [ln m = 2 atanh ((m - 1) / (m + 1))], and
    [log10 x = k * log10 2 + ln m / ln 10]. *)
Definition log10_ref (x : float) : float :=
  (let (m, e) := frshiftexp x in
   let k := of_uint63 e - 2101 in
   let (m, k) := if m <? 0x1.6a09e667f3bcdp-1 then (2 * m, k - 1) else (m, k) in
   let t := (m - 1) / (m + 1) in
   let ln_m := 2 * t * atanh_series 24 1 (t * t) in
   k * 0x1.34413509f79ffp-2 + ln_m * 0x1.bcb7b1526e50ep-2)%float.

(** ** The values of binary64 numbers *)

(** Integer counterparts of the binary64 operations, used to compare the
    results of rounded additions and multiplications. *)

Section Values.

Local Open Scope Z_scope.

(** The record after [k] shifts of [m]: the quotient, whether the
    remainder reaches the half, whether it differs from 0 and the half. *)
Definition shr_k (m : Z) (k : nat) : shr_record :=
  match k with
  | O => {| shr_m := m; shr_r := false; shr_s := false |}
  | S k' =>
      {| shr_m := m / 2 ^ Z.of_nat k;
         shr_r := Z.odd (m / 2 ^ Z.of_nat k');
         shr_s := negb (m mod 2 ^ Z.of_nat k' =? 0) |}
  end.

(** Quotient of [m] by [2^k], rounded to nearest, ties to even. *)
Definition rne_q (m k : Z) : Z :=
  let q := m / 2 ^ k in
  let r := m mod 2 ^ k in
  if 2 * r <? 2 ^ k then q
  else if 2 * r =? 2 ^ k then (if Z.even q then q else q + 1)
  else q + 1.

(** The float [binary_round_aux] builds from the rounded quotient [q] at
    exponent [fe]: a mantissa of 54 bits is halved, an exponent above
    [emax - prec] overflows. *)
Definition pack (s : bool) (q fe : Z) : spec_float :=
  let m' := if 2 ^ 53 <=? q then q / 2 else q in
  let e' := if 2 ^ 53 <=? q then fe + 1 else fe in
  match m' with
  | Z0 => S754_zero s
  | Zpos p => if e' <=? 971 then S754_finite s p e' else S754_infinity s
  | Zneg _ => S754_nan
  end.

(** The value of a float in units of [2^-1200]; an infinity counts as
    [2^1024], beyond every finite binary64 number. *)
Definition sval (f : spec_float) : Z :=
  match f with
  | S754_zero _ => 0
  | S754_infinity s => cond_Zopp s (2 ^ 2224)
  | S754_nan => 0
  | S754_finite s m e => cond_Zopp s (Zpos m * 2 ^ (e + 1200))
  end.

Definition is_nan_sf (f : spec_float) : bool :=
  match f with S754_nan => true | _ => false end.

(** Rounding to nearest even in binary64, on values in units of
    [2^-1200]: the grid is [2^g] with [g] the exponent of the format at
    the magnitude of [v]; a result of [2^1024] or more is an infinity. *)
Definition Rnd (v : Z) : Z :=
  let g := Z.max (Z.log2 v + 1 - 53) 126 in
  Z.min (rne_q v g * 2 ^ g) (2 ^ 2224).

(** The value of a binary64 number. *)
Definition fval (x : float) : Z := sval (Prim2SF x).

(** Not a NaN. *)
Definition number (x : float) : Prop := is_nan_sf (Prim2SF x) = false.

(** The value of the literal [1e-10]. *)
Definition v_eps : Z := 7737125245533627 * 2 ^ 1114.

(** Ten times a value, rounded; odd in its argument. *)
Definition Rnd10 (v : Z) : Z :=
  if 0 <=? v then Rnd (10 * v) else - Rnd (10 * - v).

End Values.

(** ** The store cell 5 leaves *)

Definition array_shape (a : array) : list nat :=
  match a with
  | FloatArr x => shape x
  | BoolArr x => shape x
  end.

(** The references cell 5 binds its variables to, in allocation order
    (3, 4, 6 and 7 are the temporaries of the two dB conversions). *)
Definition cell5_vars : Vars :=
  {| vv_band_linear := 0; vh_band_linear := 1; datamask := 2;
     vv_band_db := 5; vh_band_db := 8; nodata_mask := 9;
     vv_noise_mask := 10; vh_noise_mask := 11;
     vv_invalid_mask := 12; vh_invalid_mask := 13;
     vv_display := 14; vh_display := 15 |}.

(** The arrays one polarization contributes: its dB array, noise mask,
    invalid mask and display array, from its linear band and the no-data
    mask. *)
Definition db_array (lf : float → float) (lin : ndarray float)
  : ndarray float :=
  amap (λ x, 10 * x)%float (amap (log10 lf) (amap (λ x, x + 1e-10)%float lin)).

Definition noise_array (db : ndarray float) : ndarray bool :=
  amap (λ x, x <? -22)%float db.

Definition display_array (db : ndarray float) (invalid : ndarray bool)
  : ndarray float :=
  azip (λ x (b : bool), if b then nan else x) db invalid.

Definition cell5_heap (lf : float → float) (hgt wid : nat)
    (f1 f2 f3 : nat → nat → float) : heap :=
  let vv := tabulate2 hgt wid f1 in
  let vh := tabulate2 hgt wid f2 in
  let dm := tabulate2 hgt wid f3 in
  let nodata := amap (λ x, x =? 0)%float dm in
  let vv_inv := azip orb nodata (noise_array (db_array lf vv)) in
  let vh_inv := azip orb nodata (noise_array (db_array lf vh)) in
  [ FloatArr vv; FloatArr vh; FloatArr dm;
    FloatArr (amap (λ x, x + 1e-10)%float vv);
    FloatArr (amap (log10 lf) (amap (λ x, x + 1e-10)%float vv));
    FloatArr (db_array lf vv);
    FloatArr (amap (λ x, x + 1e-10)%float vh);
    FloatArr (amap (log10 lf) (amap (λ x, x + 1e-10)%float vh));
    FloatArr (db_array lf vh);
    BoolArr nodata;
    BoolArr (noise_array (db_array lf vv));
    BoolArr (noise_array (db_array lf vh));
    BoolArr vv_inv; BoolArr vh_inv;
    FloatArr (display_array (db_array lf vv) vv_inv);
    FloatArr (display_array (db_array lf vh) vh_inv) ].

(** A coarse logarithm, non-decreasing by construction: -10 below 1 and
    0 from 1 on.  It stands for [log10_finite] where a property asks for
    a non-decreasing logarithm. *)
Definition log10_step (a : float) : float :=
  (if a <? 1 then -10 else 0)%float.

Definition is_fetch_token (e : event) : bool :=
  match e with FetchToken _ _ => true | _ => false end.

(** An exception that is not an [Exception]: Ctrl-C during the call. *)
Definition keyboard_interrupt : exn :=
  {| exn_is_Exception := false; exn_str := "" |}.

Definition is_imshow (e : event) : bool :=
  match e with Imshow _ _ => true | _ => false end.

(** The first bytes of a little-endian TIFF file. *)
Definition tiff_magic : list Byte.byte :=
  [Byte.x49; Byte.x49; Byte.x2a; Byte.x00].

(** An environment with both credentials, given by what each call to the
    outside returns. *)
Definition world_of (tok js : result string) (rsp : result Response)
    (ds : result DatasetReader) (shp : result (list geometry)) : World :=
  {| environ := demo_environ;
     fetch_token := λ _ _, tok;
     evalscript_js := js;
     post := λ _ _, rsp;
     rasterio_open := λ _, ds;
     crs_str := λ _, "EPSG:32631";
     read_shapefile := shp;
     to_utm := λ c, c;
     get_xlim := λ _, (0, 2)%float;
     get_ylim := λ _, (0, 2)%float |}.

Definition ok_200 : Response := {| status_code := 200; content := tiff_magic |}.

(** A raster with two bands only. *)
Definition two_bands : DatasetReader :=
  {| height := 1; width := 1;
     bands := [ of_rows [[1]]; of_rows [[1]] ]%float |}.

Definition file_not_found : exn :=
  {| exn_is_Exception := true;
     exn_str := "[Errno 2] No such file or directory: 'evalscript.js'" |}.

(** A run in which every call succeeds. *)
Definition example_world : World :=
  world_of (Ok "token") (Ok "//VERSION=3") (Ok ok_200) (Ok scenario)
    (Ok [Polygon unit_square []]).

(** The same with a shapefile that has no row. *)
Definition empty_shapefile_world : World :=
  world_of (Ok "token") (Ok "//VERSION=3") (Ok ok_200) (Ok scenario) (Ok []).

(** * Properties *)

(** ** Arrays *)

Section ArrayLemmas.
Context {A B C : Type}.
Implicit Types (a : ndarray A) (b : ndarray B).

Lemma shape_amap (f : A → B) a : shape (amap f a) = shape a.
Proof.
  unfold shape, amap. rewrite <- list_fmap_compose.
  apply list_fmap_ext. intros; apply length_fmap.
Qed.

Lemma shape_tabulate2 h w (f : nat → nat → A) :
  shape (tabulate2 h w f) = replicate h w.
Proof.
  unfold shape, tabulate2. rewrite <- list_fmap_compose.
  cut (∀ s, length ∘ (λ i, f i <$> seq 0 w) <$> seq s h = replicate h w);
    [done|].
  induction h as [|h IH]; intros s; simpl; [done|].
  by rewrite length_fmap, length_seq, IH.
Qed.

Lemma shape_azip (f : A → B → C) a b :
  shape a = shape b → shape (azip f a b) = shape a.
Proof.
  unfold shape, azip. revert b.
  induction a as [|ra a IH]; intros [|rb b]; simpl; try done.
  intros [= Hr Hs]. rewrite length_zip_with, IH by done. f_equal. lia.
Qed.

Lemma get2_tabulate2 h w (f : nat → nat → A) i j :
  i < h → j < w → get2 (tabulate2 h w f) i j = Some (f i j).
Proof.
  intros Hi Hj. unfold get2, tabulate2.
  rewrite list_lookup_fmap, lookup_seq_lt by done. simpl.
  rewrite list_lookup_fmap, lookup_seq_lt by done. done.
Qed.

Lemma get2_amap (f : A → B) a i j :
  get2 (amap f a) i j = f <$> get2 a i j.
Proof.
  unfold get2, amap. rewrite list_lookup_fmap.
  destruct (a !! i) as [row|]; simpl; [|done].
  by rewrite list_lookup_fmap.
Qed.

Lemma get2_azip (f : A → B → C) a b i j x y :
  get2 a i j = Some x → get2 b i j = Some y →
  get2 (azip f a b) i j = Some (f x y).
Proof.
  unfold get2, azip. intros Ha Hb.
  destruct (a !! i) as [ra|] eqn:Ea; simpl in Ha; [|done].
  destruct (b !! i) as [rb|] eqn:Eb; simpl in Hb; [|done].
  rewrite lookup_zip_with, Ea. simpl. rewrite Eb. simpl.
  rewrite lookup_zip_with, Ha. simpl. by rewrite Hb.
Qed.

End ArrayLemmas.

(** ** Running cell 5 *)

Ltac run :=
  cbv [cell5 band_math display_arrays to_db read np_add_scalar np_log10
       np_rmul_scalar np_eq_scalar np_lt_scalar np_or np_copy np_setitem_mask
       mbind M_bind mret M_ret alloc load_float load_bool store raise];
  cbn -[tabulate2 amap azip shape decide].

Ltac shapes :=
  repeat first
    [ rewrite shape_amap | rewrite shape_tabulate2
    | rewrite shape_azip by shapes ];
  try done.

Ltac pixel :=
  repeat first
    [ rewrite get2_amap
    | erewrite get2_azip by pixel
    | rewrite get2_tabulate2 by done ];
  try done.

(** On a raster with at least three bands the cell runs to its end, and
    every pixel of its arrays is given by the samples of that pixel. *)
Lemma cell5_pixels lf src f1 f2 f3 rest :
  bands src = f1 :: f2 :: f3 :: rest →
  ∃ v h, cell5 lf src [] = Some (v, h) ∧
    ∀ i j, i < height src → j < width src →
      float_at h (vv_band_linear v) i j = Some (f1 i j) ∧
      float_at h (vh_band_linear v) i j = Some (f2 i j) ∧
      float_at h (datamask v) i j = Some (f3 i j) ∧
      float_at h (vv_band_db v) i j = Some (dB lf (f1 i j)) ∧
      float_at h (vh_band_db v) i j = Some (dB lf (f2 i j)) ∧
      bool_at h (vv_invalid_mask v) i j
        = Some (invalid_px (f3 i j) (dB lf (f1 i j))) ∧
      bool_at h (vh_invalid_mask v) i j
        = Some (invalid_px (f3 i j) (dB lf (f2 i j))) ∧
      float_at h (vv_display v) i j
        = Some (if invalid_px (f3 i j) (dB lf (f1 i j)) then nan
                else dB lf (f1 i j)) ∧
      float_at h (vh_display v) i j
        = Some (if invalid_px (f3 i j) (dB lf (f2 i j)) then nan
                else dB lf (f2 i j)).
Proof.
  intros Hb. unfold cell5, band_math, read. rewrite Hb.
  run. rewrite decide_True by shapes. run.
  rewrite decide_True by shapes. run.
  rewrite decide_True by shapes.
  rewrite decide_True by (simpl; lia). run.
  rewrite decide_True by shapes.
  rewrite decide_True by (simpl; lia). run.
  eexists _, _. split; [reflexivity|].
  intros i j Hi Hj. unfold float_at, bool_at; cbn -[tabulate2 amap azip].
  repeat split; pixel.
Qed.

Lemma three_bands src :
  3 ≤ length (bands src) → ∃ f1 f2 f3 rest, bands src = f1 :: f2 :: f3 :: rest.
Proof.
  destruct (bands src) as [|f1 [|f2 [|f3 rest]]]; simpl; try lia. eauto.
Qed.

(** ** C1: the invalid-pixel predicate *)

(** C1.  On a raster with its three bands, cell 5 runs, and at every pixel
    the two invalid masks hold: [True] in both when the mask sample equals
    0, whatever the dB values; otherwise [True] in a polarization exactly
    when that polarization's dB value is strictly below -22. *)
Theorem invalid_mask_predicate (lf : float → float) (src : DatasetReader) :
  3 ≤ length (bands src) →
  ∃ v h, cell5 lf src [] = Some (v, h) ∧
    ∀ i j, i < height src → j < width src →
    ∃ m d_vv d_vh inv_vv inv_vh,
      float_at h (datamask v) i j = Some m ∧
      float_at h (vv_band_db v) i j = Some d_vv ∧
      float_at h (vh_band_db v) i j = Some d_vh ∧
      bool_at h (vv_invalid_mask v) i j = Some inv_vv ∧
      bool_at h (vh_invalid_mask v) i j = Some inv_vh ∧
      ((m =? 0)%float = true → inv_vv = true ∧ inv_vh = true) ∧
      ((m =? 0)%float = false →
         (inv_vv = true ↔ (d_vv <? -22)%float = true) ∧
         (inv_vh = true ↔ (d_vh <? -22)%float = true)).
Proof.
  intros (f1 & f2 & f3 & rest & Hb)%three_bands.
  destruct (cell5_pixels lf src _ _ _ _ Hb) as (v & h & Hrun & Hpx).
  exists v, h. split; [done|]. intros i j Hi Hj.
  destruct (Hpx i j Hi Hj) as (_ & _ & Hm & Hvv & Hvh & Hivv & Hivh & _).
  eexists _, _, _, _, _. repeat (split; [eassumption|]).
  unfold invalid_px. split; intros ->; simpl; done.
Qed.

(** The scenario raster with the reference logarithm. *)
Lemma invalid_mask_predicate_witness :
  ∃ v h, cell5 log10_ref scenario [] = Some (v, h) ∧
    ∀ i j, i < 2 → j < 2 →
    ∃ m d_vv d_vh inv_vv inv_vh,
      float_at h (datamask v) i j = Some m ∧
      float_at h (vv_band_db v) i j = Some d_vv ∧
      float_at h (vh_band_db v) i j = Some d_vh ∧
      bool_at h (vv_invalid_mask v) i j = Some inv_vv ∧
      bool_at h (vh_invalid_mask v) i j = Some inv_vh ∧
      ((m =? 0)%float = true → inv_vv = true ∧ inv_vh = true) ∧
      ((m =? 0)%float = false →
         (inv_vv = true ↔ (d_vv <? -22)%float = true) ∧
         (inv_vh = true ↔ (d_vh <? -22)%float = true)).
Proof.
  apply (invalid_mask_predicate log10_ref scenario). simpl. lia.
Defined.

(** ** The store *)

Lemma M_bind_Some {A B} (m : M A) (f : A → M B) h r :
  (m ≫= f) h = Some r ↔ ∃ a h', m h = Some (a, h') ∧ f a h' = Some r.
Proof.
  unfold mbind, M_bind. destruct (m h) as [[a h']|]; split.
  - eauto.
  - by intros (? & ? & [= <- <-] & ?).
  - done.
  - by intros (? & ? & [=] & ?).
Qed.

Lemma load_float_Some r h a h' :
  load_float r h = Some (a, h') ↔ h !! r = Some (FloatArr a) ∧ h' = h.
Proof.
  unfold load_float. destruct (h !! r) as [[a'|m']|]; split;
    try done; try (by intros [[=] _]).
  - by intros [= -> ->].
  - by intros [[= ->] ->].
Qed.

Lemma load_bool_Some r h m h' :
  load_bool r h = Some (m, h') ↔ h !! r = Some (BoolArr m) ∧ h' = h.
Proof.
  unfold load_bool. destruct (h !! r) as [[a'|m']|]; split;
    try done; try (by intros [[=] _]).
  - by intros [= -> ->].
  - by intros [[= ->] ->].
Qed.

Lemma np_copy_Some r h r' h' :
  np_copy r h = Some (r', h') →
  ∃ a, h !! r = Some (FloatArr a) ∧ r' = length h ∧ h' = h ++ [FloatArr a].
Proof.
  unfold np_copy.
  intros (a & h0 & [Hl ->]%load_float_Some & Ha)%M_bind_Some.
  unfold alloc in Ha. injection Ha as <- <-. eauto.
Qed.

Lemma np_setitem_mask_Some r rm x h u h' :
  np_setitem_mask r rm x h = Some (u, h') →
  ∃ a m, h !! r = Some (FloatArr a) ∧ h !! rm = Some (BoolArr m) ∧
    shape a = shape m ∧
    h' = <[r := FloatArr (azip (λ y (b : bool), if b then x else y) a m)]> h.
Proof.
  unfold np_setitem_mask.
  intros (a & h0 & [Hl ->]%load_float_Some & H1)%M_bind_Some.
  apply M_bind_Some in H1 as (m & h0 & [Hm ->]%load_bool_Some & H2).
  destruct (decide (shape a = shape m)) as [Hs|]; [|done].
  unfold store in H2. destruct (decide (r < length h)); [|done].
  injection H2 as <-. eauto 10.
Qed.

(** The display step leaves every object that existed before it as it
    was: the two display arrays are new objects, and only they are
    written. *)
Lemma display_arrays_frame b h1 v h2 :
  display_arrays b h1 = Some (v, h2) →
  vv_band_db v = b_vv_db b ∧ vh_band_db v = b_vh_db b ∧
  vv_display v = length h1 ∧ vh_display v = S (length h1) ∧
  ∀ r, r < length h1 → h2 !! r = h1 !! r.
Proof.
  unfold display_arrays.
  intros (r1 & ha & (a1 & E1 & -> & ->)%np_copy_Some & H)%M_bind_Some.
  apply M_bind_Some in H as (r2 & hb & (a2 & E2 & -> & ->)%np_copy_Some & H).
  apply M_bind_Some in H as (u1 & hc & Hs1 & H).
  apply np_setitem_mask_Some in Hs1 as (a3 & m3 & _ & _ & _ & ->).
  apply M_bind_Some in H as (u2 & hd & Hs2 & H).
  apply np_setitem_mask_Some in Hs2 as (a4 & m4 & _ & _ & _ & ->).
  injection H as <- <-. simpl.
  rewrite length_app. simpl.
  repeat split; try lia.
  intros r Hr.
  rewrite !list_lookup_insert_ne by lia.
  rewrite !lookup_app_l; [done|lia|rewrite length_app; lia].
Qed.

Lemma band_math_runs lf src :
  3 ≤ length (bands src) →
  ∃ b h1, band_math lf src [] = Some (b, h1) ∧
    b_vv_db b < length h1 ∧ b_vh_db b < length h1.
Proof.
  intros (f1 & f2 & f3 & rest & Hb)%three_bands.
  unfold band_math, read. rewrite Hb.
  run. rewrite decide_True by shapes. run.
  rewrite decide_True by shapes. run.
  eexists _, _. split; [reflexivity|]. simpl. lia.
Qed.

(** ** C9: the display arrays are copies *)

(** C9 (as amended).  On a raster with its three bands: the display step
    runs on the store the band math left; the dB arrays are the same
    objects with the same contents after it, every element being the dB
    conversion of the linear sample; the display arrays are other objects;
    and at every pixel a display array holds NaN where the invalid mask
    is set and the dB value, unchanged, where it is not. *)
Theorem display_on_copies (lf : float → float) (src : DatasetReader) :
  3 ≤ length (bands src) →
  ∃ b h1 v h2,
    band_math lf src [] = Some (b, h1) ∧
    display_arrays b h1 = Some (v, h2) ∧
    cell5 lf src [] = Some (v, h2) ∧
    vv_band_db v = b_vv_db b ∧ vh_band_db v = b_vh_db b ∧
    h2 !! vv_band_db v = h1 !! b_vv_db b ∧
    h2 !! vh_band_db v = h1 !! b_vh_db b ∧
    vv_display v ≠ vv_band_db v ∧ vh_display v ≠ vh_band_db v ∧
    ∀ i j, i < height src → j < width src →
    ∃ x_vv x_vh d_vv d_vh inv_vv inv_vh disp_vv disp_vh,
      float_at h2 (vv_band_linear v) i j = Some x_vv ∧
      float_at h2 (vh_band_linear v) i j = Some x_vh ∧
      float_at h2 (vv_band_db v) i j = Some d_vv ∧ d_vv = dB lf x_vv ∧
      float_at h2 (vh_band_db v) i j = Some d_vh ∧ d_vh = dB lf x_vh ∧
      bool_at h2 (vv_invalid_mask v) i j = Some inv_vv ∧
      bool_at h2 (vh_invalid_mask v) i j = Some inv_vh ∧
      float_at h2 (vv_display v) i j = Some disp_vv ∧
      float_at h2 (vh_display v) i j = Some disp_vh ∧
      disp_vv = (if inv_vv then nan else d_vv) ∧
      disp_vh = (if inv_vh then nan else d_vh).
Proof.
  intros H3.
  destruct (band_math_runs lf src H3) as (b & h1 & Hb & L1 & L2).
  destruct (three_bands src H3) as (f1 & f2 & f3 & rest & Hbands).
  destruct (cell5_pixels lf src _ _ _ _ Hbands) as (v & h2 & Hrun & Hpx).
  assert (display_arrays b h1 = Some (v, h2)) as Hd.
  { unfold cell5 in Hrun.
    apply M_bind_Some in Hrun as (b' & h1' & Hb' & Hd).
    rewrite Hb in Hb'. by injection Hb' as <- <-. }
  destruct (display_arrays_frame _ _ _ _ Hd) as (E1 & E2 & D1 & D2 & Hfr).
  exists b, h1, v, h2. rewrite E1, E2, D1, D2.
  repeat (split; [first [done | lia | by apply Hfr]|]).
  intros i j Hi Hj.
  destruct (Hpx i j Hi Hj) as (P1 & P2 & _ & P3 & P4 & P5 & P6 & P7 & P8).
  rewrite E1 in P3. rewrite E2 in P4. rewrite D1 in P7. rewrite D2 in P8.
  eexists _, _, _, _, _, _, _, _.
  repeat (split; [first [eassumption | reflexivity]|]). reflexivity.
Qed.

(** The scenario raster: its dB arrays survive the display step. *)
Lemma display_on_copies_witness :
  ∃ b h1 v h2,
    band_math log10_ref scenario [] = Some (b, h1) ∧
    display_arrays b h1 = Some (v, h2) ∧
    h2 !! vv_band_db v = h1 !! b_vv_db b ∧
    h2 !! vh_band_db v = h1 !! b_vh_db b.
Proof.
  destruct (display_on_copies log10_ref scenario) as
    (b & h1 & v & h2 & Hb & Hd & _ & _ & _ & F1 & F2 & _); [simpl; lia|].
  exists b, h1, v, h2. done.
Defined.

(** C9 (as stated) fails: a display array can hold NaN at a pixel the
    invalid mask does not flag.  Where the linear sample is NaN or
    negative the dB value is NaN, which is not below -22. *)
Lemma nan_outside_invalid_mask :
  ∃ i j, ∀ lf, ∃ v h x,
    cell5 lf nan_raster [] = Some (v, h) ∧
    float_at h (datamask v) i j = Some 1%float ∧
    bool_at h (vv_invalid_mask v) i j = Some false ∧
    float_at h (vv_display v) i j = Some x ∧
    is_nan x = true.
Proof.
  exists 0, 1. intros lf. eexists _, _, _.
  split; [vm_compute; reflexivity|]. vm_compute. done.
Qed.

(** ** The cells of the script *)

Lemma script_bind_val {A B} (m : Script A) (f : A → Script B) t a :
  m = (t, inr a) → m ≫= f = (t ++ (f a).1, (f a).2).
Proof. intros ->. unfold mbind, Script_bind. by destruct (f a). Qed.

Lemma script_bind_halt {A B} (m : Script A) (f : A → Script B) t s :
  m = (t, inl s) → m ≫= f = (t, inl s).
Proof. by intros ->. Qed.

(** A trace that sends no request and opens no raster. *)
Abbreviation silent t :=
  (Forall (λ e, is_post e = false ∧ is_raster_open e = false) t).

Lemma silent_filter t :
  silent t → filter is_post t = [] ∧ filter is_raster_open t = [].
Proof.
  induction 1 as [|e t [Hp Hr] _ [IH1 IH2]]; [done|].
  rewrite !filter_cons, Hp, Hr. simpl. done.
Qed.

Lemma cell1_value w :
  ∃ t, cell1 w = (t, inr (environ w "CLIENT_ID", environ w "CLIENT_SECRET"))
       ∧ silent t.
Proof.
  unfold cell1.
  destruct (not_str _ || not_str _); eexists; (split; [reflexivity|]);
    repeat constructor.
Qed.

Lemma cell2_shape w a b :
  ∃ t r, cell2 w a b = (FetchToken a b :: t, r) ∧ silent t.
Proof.
  unfold cell2, call. destruct (fetch_token w a b) as [tok|e]; simpl.
  - eexists _, _. split; [reflexivity|]. repeat constructor.
  - destruct (exn_is_Exception e); simpl; eexists _, _;
      (split; [reflexivity|]); repeat constructor.
Qed.

Lemma cell3_shape w :
  ∃ t r, cell3 w = (ReadFile "evalscript.js" :: t, r) ∧ silent t.
Proof.
  unfold cell3, call. destruct (evalscript_js w) as [s|e]; simpl;
    eexists _, _; (split; [reflexivity|]); repeat constructor.
Qed.

Lemma cell4_shape w tok es :
  ∃ t r, cell4 w tok es = (Post tok :: t, r).
Proof.
  unfold cell4, call. destruct (post w tok es) as [resp|e]; simpl; [|eauto].
  destruct (status_code resp =? 200)%Z; simpl; eauto.
Qed.

(** When cells 2 and 3 end normally, the script is their silent trace
    followed by cells 4 and 5. *)
Lemma main_after_cell3 lf w t2 tok es :
  cell2 w (environ w "CLIENT_ID") (environ w "CLIENT_SECRET") = (t2, inr tok) →
  evalscript_js w = Ok es →
  ∃ t, silent t ∧
    main lf w = (t ++ (cell4 w tok es ≫= cell5_script lf w).1,
                 (cell4 w tok es ≫= cell5_script lf w).2).
Proof.
  intros H2 H3. unfold main.
  destruct (cell1_value w) as (t1 & H1 & S1).
  destruct (cell2_shape w (environ w "CLIENT_ID") (environ w "CLIENT_SECRET"))
    as (t2' & r2 & H2' & S2).
  destruct (cell3_shape w) as (t3 & r3 & H3' & S3).
  assert (r3 = inr es) as ->.
  { unfold cell3, call in H3'. rewrite H3 in H3'. simpl in H3'. congruence. }
  rewrite H2 in H2'. injection H2' as -> <-.
  rewrite (script_bind_val _ _ _ _ H1). simpl.
  rewrite (script_bind_val _ _ _ _ H2). simpl.
  rewrite (script_bind_val _ _ _ _ H3'). simpl.
  exists (t1 ++ FetchToken (environ w "CLIENT_ID") (environ w "CLIENT_SECRET")
            :: t2' ++ ReadFile "evalscript.js" :: t3).
  split.
  - apply Forall_app; split; [done|]. constructor; [done|].
    apply Forall_app; split; [done|]. by constructor.
  - rewrite <- !app_assoc. simpl. rewrite <- !app_assoc. done.
Qed.

(** ** C4: the fetch step *)

(** C4.  When the request gets a response (cells 2 and 3 having ended
    normally): with a status other than 200, cell 4 prints the failure
    with the status code and leaves [image_bytes] at [None] without
    raising, and the whole run is a trace with no request and no raster
    opened, then that one request, the failure line and the line of the
    exit at line 122; with status 200 [image_bytes] is the response body. *)
Theorem fetch_status (lf : float → float) (w : World) t2 tok es resp :
  cell2 w (environ w "CLIENT_ID") (environ w "CLIENT_SECRET") = (t2, inr tok) →
  evalscript_js w = Ok es →
  post w tok es = Ok resp →
  (status_code resp ≠ 200%Z →
     cell4 w tok es
       = ([Post tok;
           Print ("Request failed: " +:+ pretty (status_code resp))],
          inr None) ∧
     ∃ t, filter is_post t = [] ∧ filter is_raster_open t = [] ∧
       main lf w
       = (t ++ [Post tok;
                Print ("Request failed: " +:+ pretty (status_code resp));
                Print "No image data available for visualization."],
          inl Exit)) ∧
  (status_code resp = 200%Z →
     cell4 w tok es
       = ([Post tok;
           Print ("Successfully received image data ("
                  +:+ pretty (length (content resp)) +:+ " bytes).")],
          inr (Some (content resp)))).
Proof.
  intros H2 H3 H4. split.
  - intros Hs.
    assert (cell4 w tok es
            = ([Post tok;
                Print ("Request failed: " +:+ pretty (status_code resp))],
               inr None)) as Hc.
    { unfold cell4, call. rewrite H4. simpl.
      destruct (Z.eqb_spec (status_code resp) 200); [done|]. done. }
    split; [done|].
    destruct (main_after_cell3 lf w t2 tok es H2 H3) as (t & St & ->).
    exists t. destruct (silent_filter t St) as [-> ->].
    split; [done|]. split; [done|]. rewrite Hc. done.
  - intros Hs. unfold cell4, call. rewrite H4. simpl. rewrite Hs. done.
Qed.

(** A 403 response. *)
Lemma fetch_status_witness :
  cell4 (demo_world demo_environ (Ok "token")
           {| status_code := 403; content := [] |})
        (Some "token") "//VERSION=3"
  = ([Post (Some "token"); Print "Request failed: 403"], inr None).
Proof.
  apply (fetch_status log10_ref
           (demo_world demo_environ (Ok "token")
              {| status_code := 403; content := [] |})
           _ (Some "token") "//VERSION=3"
           {| status_code := 403; content := [] |}
           eq_refl eq_refl eq_refl).
  simpl. lia.
Defined.

(** ** C10: a 200 response with an empty body *)

(** C10.  Cell 5 exits at line 122 whenever [image_bytes] is falsy, [None]
    or empty; so a response with status 200 and an empty body ends the
    run there, after the request, with no raster opened. *)
Theorem empty_body_halts (lf : float → float) (w : World) t2 tok es resp :
  cell2 w (environ w "CLIENT_ID") (environ w "CLIENT_SECRET") = (t2, inr tok) →
  evalscript_js w = Ok es →
  post w tok es = Ok resp →
  status_code resp = 200%Z →
  content resp = [] →
  (∀ image_bytes, not_bytes image_bytes = true →
     cell5_script lf w image_bytes
     = ([Print "No image data available for visualization."], inl Exit)) ∧
  cell4 w tok es
    = ([Post tok; Print "Successfully received image data (0 bytes)."],
       inr (Some [])) ∧
  ∃ t, filter is_raster_open t = [] ∧
    main lf w
    = (t ++ [Post tok; Print "Successfully received image data (0 bytes).";
             Print "No image data available for visualization."],
       inl Exit).
Proof.
  intros H2 H3 H4 Hs Hc.
  assert (cell4 w tok es
    = ([Post tok; Print "Successfully received image data (0 bytes)."],
       inr (Some []))) as Hc4.
  { unfold cell4, call. rewrite H4. simpl. rewrite Hs, Hc. done. }
  split; [|split; [done|]].
  - intros ib Hib. unfold cell5_script. rewrite Hib. done.
  - destruct (main_after_cell3 lf w t2 tok es H2 H3) as (t & St & ->).
    exists t. destruct (silent_filter t St) as [_ ->].
    split; [done|]. rewrite Hc4. done.
Qed.

(** Status 200, no bytes. *)
Lemma empty_body_halts_witness :
  ∃ t, filter is_raster_open t = [] ∧
    main log10_ref
         (demo_world demo_environ (Ok "token")
            {| status_code := 200; content := [] |})
    = (t ++ [Post (Some "token");
             Print "Successfully received image data (0 bytes).";
             Print "No image data available for visualization."],
       inl Exit).
Proof.
  apply (empty_body_halts log10_ref
           (demo_world demo_environ (Ok "token")
              {| status_code := 200; content := [] |})
           _ (Some "token") "//VERSION=3"
           {| status_code := 200; content := [] |}
           eq_refl eq_refl eq_refl eq_refl eq_refl).
Defined.

(** ** C5: missing credentials *)

(** C5.  When [CLIENT_ID] or [CLIENT_SECRET] is absent or empty, cell 1
    prints the FATAL lines and ends normally, and the run goes on: its next
    event is the token exchange of cell 2. *)
Theorem missing_credentials_continue (lf : float → float) (w : World) :
  not_str (environ w "CLIENT_ID") = true
  ∨ not_str (environ w "CLIENT_SECRET") = true →
  cell1 w
    = ([Print "FATAL: CLIENT_ID or CLIENT_SECRET not found.";
        Print "Please ensure you have a .env file with your credentials.";
        Print "Configuration loaded and ready."],
       inr (environ w "CLIENT_ID", environ w "CLIENT_SECRET")) ∧
  ∃ rest r,
    main lf w
    = ([Print "FATAL: CLIENT_ID or CLIENT_SECRET not found.";
        Print "Please ensure you have a .env file with your credentials.";
        Print "Configuration loaded and ready.";
        FetchToken (environ w "CLIENT_ID") (environ w "CLIENT_SECRET")]
       ++ rest, r).
Proof.
  intros H.
  assert (not_str (environ w "CLIENT_ID")
          || not_str (environ w "CLIENT_SECRET") = true) as Hor.
  { destruct H as [-> | ->]; [done|]. apply orb_true_r. }
  assert (cell1 w
    = ([Print "FATAL: CLIENT_ID or CLIENT_SECRET not found.";
        Print "Please ensure you have a .env file with your credentials.";
        Print "Configuration loaded and ready."],
       inr (environ w "CLIENT_ID", environ w "CLIENT_SECRET"))) as H1.
  { unfold cell1. rewrite Hor. done. }
  split; [done|].
  unfold main. rewrite (script_bind_val _ _ _ _ H1). simpl.
  destruct (cell2_shape w (environ w "CLIENT_ID") (environ w "CLIENT_SECRET"))
    as (t2 & r2 & H2 & _).
  destruct r2 as [s|tok].
  - rewrite (script_bind_halt _ _ _ _ H2). simpl. eauto.
  - rewrite (script_bind_val _ _ _ _ H2). simpl. eauto.
Qed.

(** No variable set at all. *)
Lemma missing_credentials_continue_witness :
  ∃ rest r,
    main log10_ref
         (demo_world (λ _, None) (Raise connection_error)
            {| status_code := 401; content := [] |})
    = ([Print "FATAL: CLIENT_ID or CLIENT_SECRET not found.";
        Print "Please ensure you have a .env file with your credentials.";
        Print "Configuration loaded and ready.";
        FetchToken None None] ++ rest, r).
Proof.
  apply (missing_credentials_continue log10_ref
           (demo_world (λ _, None) (Raise connection_error)
              {| status_code := 401; content := [] |})).
  left. reflexivity.
Defined.

(** ** C6: a failed token exchange *)

(** C6.  When [fetch_token] raises an [Exception], cell 2 prints the
    failure and ends normally with no token; the run goes on to read the
    evalscript, and the request is then sent by a session without token. *)
Theorem token_failure_continue (lf : float → float) (w : World) (e : exn) :
  fetch_token w (environ w "CLIENT_ID") (environ w "CLIENT_SECRET") = Raise e →
  exn_is_Exception e = true →
  cell2 w (environ w "CLIENT_ID") (environ w "CLIENT_SECRET")
    = ([FetchToken (environ w "CLIENT_ID") (environ w "CLIENT_SECRET");
        Print ("Authentication failed: " +:+ exn_str e)],
       inr None) ∧
  ∃ t1 rest r,
    cell1 w = (t1, inr (environ w "CLIENT_ID", environ w "CLIENT_SECRET")) ∧
    main lf w
    = (t1 ++ [FetchToken (environ w "CLIENT_ID") (environ w "CLIENT_SECRET");
              Print ("Authentication failed: " +:+ exn_str e);
              ReadFile "evalscript.js"] ++ rest, r) ∧
    (∀ es, evalscript_js w = Ok es → Post None ∈ rest).
Proof.
  intros Hf He.
  assert (cell2 w (environ w "CLIENT_ID") (environ w "CLIENT_SECRET")
    = ([FetchToken (environ w "CLIENT_ID") (environ w "CLIENT_SECRET");
        Print ("Authentication failed: " +:+ exn_str e)],
       inr None)) as H2.
  { unfold cell2, call. rewrite Hf. simpl. rewrite He. done. }
  split; [done|].
  destruct (cell1_value w) as (t1 & H1 & _).
  exists t1. unfold main.
  rewrite (script_bind_val _ _ _ _ H1). simpl.
  rewrite (script_bind_val _ _ _ _ H2). simpl.
  unfold cell3 at 1 2, call. destruct (evalscript_js w) as [es|x]; simpl.
  - destruct (cell4_shape w None es) as (t4 & r4 & H4).
    destruct r4 as [s|ib].
    + rewrite (script_bind_halt _ _ _ _ H4). simpl.
      eexists _, _. split; [done|]. split; [reflexivity|].
      intros _ _. repeat constructor.
    + rewrite (script_bind_val _ _ _ _ H4). simpl.
      eexists _, _. split; [done|]. split; [reflexivity|].
      intros _ _. repeat constructor.
  - eexists _, _. split; [done|]. split; [reflexivity|]. intros es [=].
Qed.

(** The connection to the identity service is refused. *)
Lemma token_failure_continue_witness :
  cell2 (demo_world demo_environ (Raise connection_error)
           {| status_code := 401; content := [] |})
        (Some "my-client") (Some "my-secret")
  = ([FetchToken (Some "my-client") (Some "my-secret");
      Print "Authentication failed: Connection refused"],
     inr None).
Proof.
  apply (token_failure_continue log10_ref
           (demo_world demo_environ (Raise connection_error)
              {| status_code := 401; content := [] |})
           connection_error eq_refl eq_refl).
Defined.

(** ** C7: the masking shape *)

Lemma inner_codes_length n : 2 ≤ n → length (inner_codes n) = n.
Proof.
  intros Hn. unfold inner_codes.
  rewrite !length_app, length_replicate. simpl. lia.
Qed.

(** C7.  The compound path, and so the patch added to an axis, is the same
    whatever rows follow the first in the shapefile.  When the first
    geometry is a polygon (its ring having at least two coordinates), the
    path is the five vertices of the axes rectangle followed by the
    reprojected exterior ring, closed, with two subpaths in all; the
    polygon's interior rings play no part. *)
Theorem compound_path_first_geometry (w : World) (xlim ylim : float * float) :
  (∀ g rest rest',
     compound_path (map_geometry (to_utm w) <$> g :: rest) xlim ylim
     = compound_path (map_geometry (to_utm w) <$> g :: rest') xlim ylim) ∧
  (∀ g rest rest' ax,
     overlay w (map_geometry (to_utm w) <$> g :: rest) ax
     = overlay w (map_geometry (to_utm w) <$> g :: rest') ax) ∧
  (∀ ext ints rest, 2 ≤ length ext →
     compound_path (map_geometry (to_utm w) <$> Polygon ext ints :: rest)
                   xlim ylim
     = Ok {| vertices := outer_coords xlim ylim ++ (to_utm w <$> ext);
             codes := outer_codes ++ [MOVETO]
                      ++ replicate (length ext - 2) LINETO ++ [CLOSEPOLY] |}
     ∧ length (filter is_moveto
                 (outer_codes ++ [MOVETO]
                  ++ replicate (length ext - 2) LINETO ++ [CLOSEPOLY])) = 2).
Proof.
  split; [done|]. split; [done|]. intros ext ints rest Hn. split.
  - unfold compound_path, mkPath.
    cbn -[inner_codes outer_coords outer_codes].
    rewrite decide_True; [by rewrite length_fmap|].
    rewrite !length_app, inner_codes_length; [done|].
    by rewrite length_fmap.
  - rewrite !filter_app. simpl.
    replace (filter is_moveto (replicate (length ext - 2) LINETO))
      with (@nil code); [done|].
    induction (length ext - 2) as [|k IH]; [done|]. simpl. done.
Qed.

(** A shapefile of two polygons: only the unit square is drawn. *)
Lemma compound_path_first_geometry_witness :
  compound_path
    (map_geometry (λ c, c)
       <$> [Polygon unit_square [];
            Polygon [(5, 5); (6, 5); (6, 6); (5, 5)]%float []])
    (0, 2)%float (0, 2)%float
  = Ok {| vertices := outer_coords (0, 2)%float (0, 2)%float ++ unit_square;
          codes := outer_codes
                   ++ [MOVETO; LINETO; LINETO; LINETO; CLOSEPOLY] |}.
Proof.
  pose proof (compound_path_first_geometry
                (demo_world demo_environ (Ok "token")
                   {| status_code := 200; content := [] |})
                (0, 2)%float (0, 2)%float) as (_ & _ & H).
  destruct (H unit_square []
              [Polygon [(5, 5); (6, 5); (6, 6); (5, 5)]%float []])
    as [Hp _]; [simpl; lia|].
  exact Hp.
Defined.


(** ** Rounding in binary64 *)

Section Binary64.

Local Open Scope Z_scope.

(** digits *)
Lemma digits2_pos_bounds (m : positive) :
  2 ^ (Zpos (digits2_pos m) - 1) <= Zpos m < 2 ^ Zpos (digits2_pos m).
Proof.
  induction m as [m IH|m IH|]; simpl digits2_pos.
  - rewrite Pos2Z.inj_succ.
    replace (Z.succ (Zpos (digits2_pos m)) - 1) with (Z.succ (Zpos (digits2_pos m) - 1)) by lia.
    rewrite !Z.pow_succ_r by lia. lia.
  - rewrite Pos2Z.inj_succ.
    replace (Z.succ (Zpos (digits2_pos m)) - 1) with (Z.succ (Zpos (digits2_pos m) - 1)) by lia.
    rewrite !Z.pow_succ_r by lia. lia.
  - simpl. lia.
Qed.

Lemma pow2_pos n : 0 <= n -> 0 < 2 ^ n.
Proof. intros. apply Z.pow_pos_nonneg; lia. Qed.

Lemma pow2_le a b : 0 <= a <= b -> 2 ^ a <= 2 ^ b.
Proof. intros. apply Z.pow_le_mono_r; lia. Qed.

Lemma pow2_lt a b : 0 <= a < b -> 2 ^ a < 2 ^ b.
Proof. intros. apply Z.pow_lt_mono_r; lia. Qed.

(** [d] is the number of digits of [m] as soon as [2^(d-1) <= m < 2^d]. *)
Lemma digits2_pos_unique (m : positive) d :
  2 ^ (d - 1) <= Zpos m < 2 ^ d -> Zpos (digits2_pos m) = d.
Proof.
  intros [H1 H2]. pose proof (digits2_pos_bounds m) as [B1 B2].
  set (d' := Zpos (digits2_pos m)) in *.
  assert (0 < d') by (unfold d'; lia).
  destruct (Z_lt_le_dec d 1) as [Hd|Hd].
  { assert (2 ^ d <= 1).
    { destruct (Z_lt_le_dec d 0). rewrite Z.pow_neg_r by lia. lia.
      replace d with 0 by lia. simpl. lia. }
    lia. }
  destruct (Z.lt_trichotomy d d') as [Hlt|[Heq|Hgt]]; [|done|].
  - assert (2 ^ d <= 2 ^ (d' - 1)) by (apply pow2_le; lia). lia.
  - assert (2 ^ d' <= 2 ^ (d - 1)) by (apply pow2_le; lia). lia.
Qed.

Lemma digits2_pos_mono (m1 m2 : positive) :
  Zpos m1 <= Zpos m2 -> Zpos (digits2_pos m1) <= Zpos (digits2_pos m2).
Proof.
  intros H. pose proof (digits2_pos_bounds m1) as [B1 B2].
  pose proof (digits2_pos_bounds m2) as [C1 C2].
  destruct (Z_lt_le_dec (Zpos (digits2_pos m2)) (Zpos (digits2_pos m1))); [|done].
  assert (2 ^ Zpos (digits2_pos m2) <= 2 ^ (Zpos (digits2_pos m1) - 1))
    by (apply pow2_le; lia). lia.
Qed.


Lemma iter_pos_comm {A} (f : A -> A) p x :
  SpecFloat.iter_pos f p (f x) = f (SpecFloat.iter_pos f p x).
Proof.
  revert x. induction p as [p IH|p IH|]; intros x; cbn [SpecFloat.iter_pos]; [|by rewrite !IH|done].
  by rewrite !IH.
Qed.

Lemma iter_pos_nat {A} (f : A -> A) p x :
  SpecFloat.iter_pos f p x = Nat.iter (Pos.to_nat p) f x.
Proof.
  revert x. induction p as [p IH|p IH|]; intros x; cbn [SpecFloat.iter_pos].
  - rewrite Pos2Nat.inj_xI, !iter_pos_comm, !IH.
    replace (S (2 * Pos.to_nat p))%nat with (S (Pos.to_nat p + Pos.to_nat p))%nat by lia.
    rewrite Nat.iter_succ, Nat.iter_add. done.
  - rewrite Pos2Nat.inj_xO, !IH.
    replace (2 * Pos.to_nat p)%nat with (Pos.to_nat p + Pos.to_nat p)%nat by lia.
    by rewrite Nat.iter_add.
  - done.
Qed.

(** One right shift: halve, the bit shifted out becomes the round bit,
    the old round bit joins the sticky bit. *)
Lemma shr_1_spec m r s :
  0 <= m ->
  shr_1 {| shr_m := m; shr_r := r; shr_s := s |}
  = {| shr_m := m / 2; shr_r := Z.odd m; shr_s := r || s |}.
Proof.
  intros Hm. destruct m as [|p|p]; [done| |lia].
  destruct p as [p|p|]; simpl shr_1; f_equal.
  - rewrite Pos2Z.inj_xI. apply Z.div_unique with 1; lia.
  - rewrite Pos2Z.inj_xO. apply Z.div_unique with 0; lia.
Qed.

Lemma shr_iter m k :
  0 <= m ->
  Nat.iter k shr_1 {| shr_m := m; shr_r := false; shr_s := false |} = shr_k m k.
Proof.
  intros Hm. induction k as [|k IH]; [done|].
  simpl Nat.iter. rewrite IH. destruct k as [|k].
  - simpl shr_k. rewrite shr_1_spec by done. f_equal.
    + rewrite Z.div_1_r. done.
    + rewrite Z.mod_1_r. done.
  - unfold shr_k. rewrite shr_1_spec.
    2:{ apply Z.div_pos; [done|]. apply pow2_pos. lia. }
    f_equal.
    + rewrite Z.div_div by (try apply pow2_pos; lia).
      rewrite (Nat2Z.inj_succ (S k)), Z.pow_succ_r by lia.
      f_equal. lia.
    + rewrite (Nat2Z.inj_succ k), Z.pow_succ_r by lia.
      pose proof (pow2_pos (Z.of_nat k) ltac:(lia)) as Hp.
      rewrite (Z.mul_comm 2), Z.rem_mul_r by lia.
      set (a := m mod 2 ^ Z.of_nat k). set (q := m / 2 ^ Z.of_nat k).
      assert (0 <= a < 2 ^ Z.of_nat k) by (apply Z.mod_pos_bound; lia).
      rewrite Zodd_mod. 
      assert (0 <= q mod 2 < 2) by (apply Z.mod_pos_bound; lia).
      destruct (Z.eqb_spec (q mod 2) 1) as [E|E]; simpl.
      * rewrite E. destruct (Z.eqb_spec (a + 2 ^ Z.of_nat k * 1) 0); [lia|done].
      * replace (q mod 2) with 0 by lia. rewrite Z.mul_0_r, Z.add_0_r. done.
Qed.


Lemma digits2_pos_log2 m : Zpos (digits2_pos m) = Z.log2 (Zpos m) + 1.
Proof.
  apply digits2_pos_unique.
  pose proof (Z.log2_spec (Zpos m) ltac:(lia)) as [H1 H2].
  replace (Z.log2 (Z.pos m) + 1 - 1) with (Z.log2 (Z.pos m)) by lia.
  replace (Z.log2 (Z.pos m) + 1) with (Z.succ (Z.log2 (Z.pos m))) by lia.
  done.
Qed.

Lemma rne_shr_k m k :
  0 <= m ->
  round_nearest_even (shr_m (shr_k m k)) (loc_of_shr_record (shr_k m k))
  = rne_q m (Z.of_nat k).
Proof.
  intros Hm. unfold rne_q. destruct k as [|k].
  - simpl. rewrite Z.div_1_r, Z.mod_1_r. done.
  - unfold shr_k. cbn [shr_m loc_of_shr_record].
    rewrite (Nat2Z.inj_succ k), Z.pow_succ_r by lia.
    pose proof (pow2_pos (Z.of_nat k) ltac:(lia)) as Hp.
    set (h := 2 ^ Z.of_nat k) in *.
    rewrite (Z.mul_comm 2 h), Z.rem_mul_r by lia.
    set (a := m mod h). set (q := m / h).
    assert (0 <= a < h) by (apply Z.mod_pos_bound; lia).
    rewrite Zodd_mod.
    assert (0 <= q mod 2 < 2) by (apply Z.mod_pos_bound; lia).
    destruct (Z.eqb_spec (q mod 2) 1) as [E|E].
    + rewrite E.
      destruct (Z.eqb_spec a 0) as [Ea|Ea]; simpl.
      * destruct (Z.ltb_spec (2 * (a + h * 1)) (h * 2)); [lia|].
        destruct (Z.eqb_spec (2 * (a + h * 1)) (h * 2)); [done|lia].
      * destruct (Z.ltb_spec (2 * (a + h * 1)) (h * 2)); [lia|].
        destruct (Z.eqb_spec (2 * (a + h * 1)) (h * 2)); [lia|done].
    + replace (q mod 2) with 0 by lia. rewrite Z.mul_0_r, Z.add_0_r.
      destruct (Z.ltb_spec (2 * a) (h * 2)); [|lia].
      destruct (Z.eqb_spec a 0); done.
Qed.

(** [shr] by [k >= 0] positions. *)
Lemma shr_spec m e k :
  0 <= m -> 0 <= k ->
  shr {| shr_m := m; shr_r := false; shr_s := false |} e k
  = (shr_k m (Z.to_nat k), e + k).
Proof.
  intros Hm Hk. unfold shr. destruct k as [|p|p]; [|  |lia].
  - simpl. by rewrite Z.add_0_r.
  - rewrite iter_pos_nat, shr_iter by done. f_equal.
Qed.


Lemma fexp_eq x : fexp prec emax x = Z.max (x - 53) (-1074).
Proof. reflexivity. Qed.

Lemma rne_q_bounds m k :
  0 <= m -> 0 <= k -> m / 2 ^ k <= rne_q m k <= m / 2 ^ k + 1.
Proof.
  intros Hm Hk. unfold rne_q.
  repeat match goal with |- context [if ?c then _ else _] => destruct c end; lia.
Qed.

Lemma div_pow2_lt m k d :
  0 <= m < 2 ^ d -> 0 <= k -> 0 <= d -> d - k <= 53 -> m / 2 ^ k < 2 ^ 53.
Proof.
  intros [H0 Hm] Hk Hd Hdk.
  pose proof (pow2_pos k Hk) as Hp.
  apply Z.div_lt_upper_bound; [done|].
  destruct (Z_lt_le_dec d k).
  - assert (2 ^ d <= 2 ^ k) by (apply pow2_le; lia).
    assert (1 <= 2 ^ 53) by (change 1 with (2 ^ 0); apply pow2_le; lia). nia.
  - assert (2 ^ d <= 2 ^ k * 2 ^ 53).
    { rewrite <- Z.pow_add_r by lia. apply pow2_le. lia. }
    lia.
Qed.

Lemma bra_exact s (m : positive) e :
  let fe := fexp prec emax (Zpos (digits2_pos m) + e) in
  e <= fe ->
  binary_round_aux prec emax s (Zpos m) e loc_Exact
  = pack s (rne_q (Zpos m) (fe - e)) fe.
Proof.
  intros fe Hfe.
  unfold binary_round_aux, shr_fexp at 1.
  cbn [Zdigits2 shr_record_of_loc]. fold fe.
  rewrite shr_spec by lia.
  rewrite rne_shr_k, Z2Nat.id by lia.
  replace (e + (fe - e)) with fe by lia.
  pose proof (digits2_pos_bounds m) as [_ Hd].
  pose proof (rne_q_bounds (Zpos m) (fe - e) ltac:(lia) ltac:(lia)) as [Hq1 Hq2].
  assert (Zpos m / 2 ^ (fe - e) < 2 ^ 53) as Hq3.
  { apply div_pow2_lt with (Zpos (digits2_pos m)); try lia.
    unfold fe. rewrite fexp_eq. lia. }
  assert (0 <= Zpos m / 2 ^ (fe - e)) as Hq0.
  { apply Z.div_pos; [lia|]. apply pow2_pos. lia. }
  assert (-1074 <= fe) as Hfe2 by (unfold fe; rewrite fexp_eq; lia).
  set (q := rne_q (Zpos m) (fe - e)) in *.
  unfold pack, shr_fexp.
  destruct (Z.leb_spec (2 ^ 53) q) as [Hc|Hc].
  - assert (q = 2 ^ 53) as -> by lia.
    vm_compute (Zdigits2 (2 ^ 53)). rewrite fexp_eq.
    replace (Z.max (54 + fe - 53) (-1074) - fe) with 1 by lia.
    cbn [shr_record_of_loc shr SpecFloat.iter_pos].
    rewrite shr_1_spec by lia. cbn [shr_m].
    replace (fe + 1) with (fe + 1) by lia. reflexivity.
  - destruct q as [|p|p]; [| |lia].
    + cbn [Zdigits2]. rewrite fexp_eq.
      cbn [shr_record_of_loc]. unfold shr.
      destruct (Z.max (0 + fe - 53) (-1074) - fe) eqn:E; try reflexivity. lia.
    + cbn [Zdigits2]. rewrite fexp_eq.
      assert (Zpos (digits2_pos p) <= 53) as Hdp.
      { pose proof (digits2_pos_bounds p) as [B1 _].
        destruct (Z_lt_le_dec 53 (Zpos (digits2_pos p))); [|lia].
        assert (2 ^ 53 <= 2 ^ (Zpos (digits2_pos p) - 1)) by (apply pow2_le; lia).
        lia. }
      cbn [shr_record_of_loc]. unfold shr.
      destruct (Z.max (Zpos (digits2_pos p) + fe - 53) (-1074) - fe) eqn:E;
        try reflexivity. lia.
Qed.


Lemma valid_finite s m e :
  valid_binary (S754_finite s m e) = true <->
  e <= 971 /\ Z.max (Zpos (digits2_pos m) + e - 53) (-1074) = e.
Proof.
  unfold SpecFloat.valid_binary, bounded, canonical_mantissa.
  rewrite fexp_eq, andb_true_iff, Z.eqb_eq, Z.leb_le.
  change (emax - prec) with 971. tauto.
Qed.

Lemma pack_valid s q fe :
  0 <= q <= 2 ^ 53 -> -1074 <= fe -> (fe = -1074 \/ 2 ^ 52 <= q) ->
  valid_binary (pack s q fe) = true.
Proof.
  intros Hq Hfe Hcan. unfold pack.
  destruct (Z.leb_spec (2 ^ 53) q) as [Hc|Hc].
  - assert (q = 2 ^ 53) as -> by lia.
    change (2 ^ 53 / 2) with (Zpos 4503599627370496).
    destruct (Z.leb_spec (fe + 1) 971); [|done].
    apply valid_finite. split; [done|].
    change (Zpos (digits2_pos 4503599627370496)) with 53. lia.
  - destruct q as [|p|p]; [done| |lia].
    destruct (Z.leb_spec fe 971); [|done].
    apply valid_finite. split; [done|].
    pose proof (digits2_pos_bounds p) as [B1 B2].
    assert (Zpos (digits2_pos p) <= 53).
    { destruct (Z_lt_le_dec 53 (Zpos (digits2_pos p))); [|lia].
      assert (2 ^ 53 <= 2 ^ (Zpos (digits2_pos p) - 1)) by (apply pow2_le; lia).
      lia. }
    destruct Hcan as [->|Hcan]; [lia|].
    assert (53 <= Zpos (digits2_pos p)).
    { destruct (Z_lt_le_dec (Zpos (digits2_pos p)) 53); [|lia].
      assert (2 ^ Zpos (digits2_pos p) <= 2 ^ 52) by (apply pow2_le; lia).
      lia. }
    lia.
Qed.

Lemma pow2_split a b : 0 <= a -> 0 <= b -> 2 ^ (a + b) = 2 ^ a * 2 ^ b.
Proof. intros. apply Z.pow_add_r; lia. Qed.

Lemma pack_val q fe :
  0 <= q <= 2 ^ 53 -> -1074 <= fe -> (fe = -1074 \/ 2 ^ 52 <= q) ->
  sval (pack false q fe) = Z.min (q * 2 ^ (fe + 1200)) (2 ^ 2224).
Proof.
  intros Hq Hfe Hcan. unfold pack.
  pose proof (pow2_pos (fe + 1200) ltac:(lia)) as Hp.
  destruct (Z.leb_spec (2 ^ 53) q) as [Hc|Hc].
  - assert (q = 2 ^ 53) as -> by lia.
    change (2 ^ 53 / 2) with (Zpos 4503599627370496).
    destruct (Z.leb_spec (fe + 1) 971) as [Ho|Ho]; cbn [sval cond_Zopp].
    + change (Zpos 4503599627370496) with (2 ^ 52).
      replace (fe + 1 + 1200) with (1 + (fe + 1200)) by lia.
      rewrite pow2_split by lia. change (2 ^ 1) with 2.
      assert (2 ^ 53 * 2 ^ (fe + 1200) < 2 ^ 2224).
      { rewrite <- pow2_split by lia. apply pow2_lt. lia. }
      change (2 ^ 53) with (2 * 2 ^ 52) in *. lia.
    + assert (2 ^ 2224 <= 2 ^ 53 * 2 ^ (fe + 1200)).
      { rewrite <- pow2_split by lia. apply pow2_le. lia. }
      lia.
  - destruct q as [|p|p]; [|  |lia].
    + cbn [sval]. assert (0 < 2 ^ 2224) by (apply pow2_pos; lia). lia.
    + destruct (Z.leb_spec fe 971) as [Ho|Ho]; cbn [sval cond_Zopp].
      * assert (2 ^ 53 * 2 ^ (fe + 1200) <= 2 ^ 2224).
        { rewrite <- pow2_split by lia. apply pow2_le. lia. }
        nia.
      * destruct Hcan as [->|Hcan]; [lia|].
        assert (2 ^ 2224 <= 2 ^ 52 * 2 ^ (fe + 1200)).
        { rewrite <- pow2_split by lia. apply pow2_le. lia. }
        nia.
Qed.

Lemma pack_sign s q fe :
  sval (pack s q fe) = cond_Zopp s (sval (pack false q fe)) /\
  is_nan_sf (pack s q fe) = is_nan_sf (pack false q fe).
Proof.
  unfold pack. destruct (if 2 ^ 53 <=? q then q / 2 else q) as [|p|p].
  - by destruct s.
  - by destruct (_ <=? 971).
  - by destruct s.
Qed.

Lemma pack_not_nan q fe : 0 <= q -> is_nan_sf (pack false q fe) = false.
Proof.
  intros Hq. unfold pack.
  assert (0 <= q / 2) by (apply Z.div_pos; lia).
  destruct (2 ^ 53 <=? q).
  - destruct (q / 2) as [|p|p]; [done| |lia]. by destruct (_ <=? 971).
  - destruct q as [|p|p]; [done| |lia]. by destruct (_ <=? 971).
Qed.


Lemma rne_q_scale m k a :
  0 <= k -> 0 <= a -> rne_q (m * 2 ^ a) (k + a) = rne_q m k.
Proof.
  intros Hk Ha. unfold rne_q.
  pose proof (pow2_pos a Ha) as Hpa. pose proof (pow2_pos k Hk) as Hpk.
  rewrite pow2_split by lia.
  rewrite Z.div_mul_cancel_r by lia.
  rewrite Z.mul_mod_distr_r by lia.
  set (r := m mod 2 ^ k).
  assert ((2 * (r * 2 ^ a) <? 2 ^ k * 2 ^ a) = (2 * r <? 2 ^ k)) as ->.
  { destruct (Z.ltb_spec (2 * (r * 2 ^ a)) (2 ^ k * 2 ^ a));
      destruct (Z.ltb_spec (2 * r) (2 ^ k)); try done; nia. }
  assert ((2 * (r * 2 ^ a) =? 2 ^ k * 2 ^ a) = (2 * r =? 2 ^ k)) as ->.
  { destruct (Z.eqb_spec (2 * (r * 2 ^ a)) (2 ^ k * 2 ^ a));
      destruct (Z.eqb_spec (2 * r) (2 ^ k)); try done; nia. }
  done.
Qed.

Lemma div_pow2_ge m d :
  53 <= d -> 2 ^ (d - 1) <= m -> 2 ^ 52 <= m / 2 ^ (d - 53).
Proof.
  intros Hd Hm. apply Z.div_le_lower_bound; [apply pow2_pos; lia|].
  rewrite <- pow2_split by lia. replace (d - 53 + 52) with (d - 1) by lia. done.
Qed.

Lemma bra_val s (m : positive) e :
  e <= fexp prec emax (Zpos (digits2_pos m) + e) -> -1200 <= e ->
  valid_binary (binary_round_aux prec emax s (Zpos m) e loc_Exact) = true /\
  is_nan_sf (binary_round_aux prec emax s (Zpos m) e loc_Exact) = false /\
  sval (binary_round_aux prec emax s (Zpos m) e loc_Exact)
  = cond_Zopp s (Rnd (Zpos m * 2 ^ (e + 1200))).
Proof.
  intros Hfe He.
  set (fe := fexp prec emax (Zpos (digits2_pos m) + e)) in *.
  assert (-1074 <= fe) as Hfe2 by (unfold fe; rewrite fexp_eq; lia).
  pose proof (digits2_pos_bounds m) as [Hd1 Hd2].
  pose proof (rne_q_bounds (Zpos m) (fe - e) ltac:(lia) ltac:(lia)) as [Hq1 Hq2].
  assert (Zpos m / 2 ^ (fe - e) < 2 ^ 53) as Hq3.
  { apply div_pow2_lt with (Zpos (digits2_pos m)); try lia.
    unfold fe. rewrite fexp_eq. lia. }
  assert (0 <= Zpos m / 2 ^ (fe - e)) as Hq0.
  { apply Z.div_pos; [lia|]. apply pow2_pos. lia. }
  assert (fe = -1074 \/ 2 ^ 52 <= rne_q (Zpos m) (fe - e)) as Hcan.
  { destruct (Z.eq_dec fe (-1074)) as [|Hne]; [by left|right].
    assert (fe = Zpos (digits2_pos m) + e - 53) as Hfe3
      by (unfold fe in *; rewrite fexp_eq in *; lia).
    replace (fe - e) with (Zpos (digits2_pos m) - 53) in * by lia.
    pose proof (div_pow2_ge (Zpos m) (Zpos (digits2_pos m)) ltac:(lia) Hd1).
    lia. }
  assert (binary_round_aux prec emax s (Zpos m) e loc_Exact
          = pack s (rne_q (Zpos m) (fe - e)) fe) as Hb
    by (by apply bra_exact).
  assert (Rnd (Zpos m * 2 ^ (e + 1200))
          = Z.min (rne_q (Zpos m) (fe - e) * 2 ^ (fe + 1200)) (2 ^ 2224)) as HR.
  { unfold Rnd. rewrite Z.log2_mul_pow2 by lia.
    rewrite <- (digits2_pos_log2 m) || idtac.
    replace (Z.max (e + 1200 + Z.log2 (Zpos m) + 1 - 53) 126) with (fe + 1200).
    2:{ unfold fe. rewrite fexp_eq, digits2_pos_log2. lia. }
    replace (fe + 1200) with ((fe - e) + (e + 1200)) at 1 by lia.
    rewrite rne_q_scale by lia. done. }
  rewrite Hb, HR.
  destruct (pack_sign s (rne_q (Zpos m) (fe - e)) fe) as [-> ->].
  rewrite pack_not_nan by lia.
  rewrite pack_val by (done || lia).
  split; [|done]. apply pack_valid; (done || lia).
Qed.


Lemma rne_q_mono v1 v2 g :
  0 <= g -> 0 <= v1 <= v2 -> rne_q v1 g <= rne_q v2 g.
Proof.
  intros Hg [H0 H12].
  pose proof (pow2_pos g Hg) as Hp.
  pose proof (Z.div_le_mono v1 v2 (2 ^ g) Hp H12) as Hq.
  pose proof (rne_q_bounds v1 g H0 Hg) as [A1 A2].
  pose proof (rne_q_bounds v2 g ltac:(lia) Hg) as [B1 B2].
  destruct (Z.eq_dec (v1 / 2 ^ g) (v2 / 2 ^ g)) as [E|E]; [|lia].
  unfold rne_q. rewrite <- E.
  pose proof (Z.div_mod v1 (2 ^ g) ltac:(lia)) as D1.
  pose proof (Z.div_mod v2 (2 ^ g) ltac:(lia)) as D2.
  rewrite <- E in D2.
  assert (v1 mod 2 ^ g <= v2 mod 2 ^ g) as Hr by lia.
  destruct (Z.ltb_spec (2 * (v1 mod 2 ^ g)) (2 ^ g));
    destruct (Z.ltb_spec (2 * (v2 mod 2 ^ g)) (2 ^ g));
    destruct (Z.eqb_spec (2 * (v1 mod 2 ^ g)) (2 ^ g));
    destruct (Z.eqb_spec (2 * (v2 mod 2 ^ g)) (2 ^ g));
    destruct (Z.even (v1 / 2 ^ g)); lia.
Qed.

Lemma rne_q_grid c g : 0 <= g -> rne_q (c * 2 ^ g) g = c.
Proof.
  intros Hg. pose proof (pow2_pos g Hg) as Hp. unfold rne_q.
  rewrite Z.div_mul, Z.mod_mul by lia.
  destruct (Z.ltb_spec (2 * 0) (2 ^ g)); [done|lia].
Qed.

Lemma Rnd_mono v1 v2 : 0 < v1 <= v2 -> Rnd v1 <= Rnd v2.
Proof.
  intros [H0 H12]. unfold Rnd.
  pose proof (Z.log2_le_mono v1 v2 H12) as Hl.
  pose proof (Z.log2_nonneg v1) as Hn1.
  set (g1 := Z.max (Z.log2 v1 + 1 - 53) 126).
  set (g2 := Z.max (Z.log2 v2 + 1 - 53) 126).
  assert (126 <= g1 <= g2) as Hg by (unfold g1, g2; lia).
  apply Z.min_le_compat_r.
  destruct (Z.eq_dec g1 g2) as [E|E].
  - rewrite <- E. apply Z.mul_le_mono_nonneg_r.
    + pose proof (pow2_pos g1 ltac:(lia)). lia.
    + apply rne_q_mono; lia.
  - assert (g2 = Z.log2 v2 - 52) as Hg2 by (unfold g1, g2 in *; lia).
    assert (Z.log2 v1 + 1 <= Z.log2 v2) as Hl2 by (unfold g1, g2 in *; lia).
    pose proof (Z.log2_spec v1 H0) as [_ S1].
    pose proof (Z.log2_spec v2 ltac:(lia)) as [S2 _].
    set (P := 2 ^ Z.log2 v2) in *.
    assert (v1 <= P).
    { assert (2 ^ Z.succ (Z.log2 v1) <= P) by (apply pow2_le; lia). lia. }
    assert (P = 2 ^ (Z.log2 v2 - g1) * 2 ^ g1) as P1.
    { unfold P. rewrite <- pow2_split by lia. f_equal. lia. }
    assert (P = 2 ^ 52 * 2 ^ g2) as P2.
    { unfold P. rewrite <- pow2_split by lia. f_equal. lia. }
    transitivity P.
    + pose proof (rne_q_grid (2 ^ (Z.log2 v2 - g1)) g1 ltac:(lia)) as G1.
      rewrite <- P1 in G1.
      pose proof (rne_q_mono v1 P g1 ltac:(lia) ltac:(lia)) as M1.
      pose proof (pow2_pos g1 ltac:(lia)). nia.
    + pose proof (rne_q_grid (2 ^ 52) g2 ltac:(lia)) as G2.
      rewrite <- P2 in G2.
      pose proof (rne_q_mono P v2 g2 ltac:(lia) ltac:(lia)) as M2.
      pose proof (pow2_pos g2 ltac:(lia)). nia.
Qed.

Lemma Rnd_nonneg v : 0 <= v -> 0 <= Rnd v.
Proof.
  intros Hv. unfold Rnd.
  set (g := Z.max (Z.log2 v + 1 - 53) 126).
  pose proof (pow2_pos g ltac:(lia)).
  pose proof (rne_q_bounds v g Hv ltac:(lia)) as [B _].
  assert (0 <= v / 2 ^ g) by (apply Z.div_pos; lia).
  assert (0 < 2 ^ 2224) by (apply pow2_pos; lia).
  apply Z.min_glb; [nia|lia].
Qed.


Lemma valid_mantissa s m e :
  valid_binary (S754_finite s m e) = true ->
  -1074 <= e <= 971 /\ Zpos m < 2 ^ 53 /\ (-1074 < e -> 2 ^ 52 <= Zpos m).
Proof.
  intros [He Hc]%valid_finite.
  pose proof (digits2_pos_bounds m) as [B1 B2].
  split; [lia|]. split.
  - assert (2 ^ Zpos (digits2_pos m) <= 2 ^ 53) by (apply pow2_le; lia). lia.
  - intros Hlt.
    assert (2 ^ 52 <= 2 ^ (Zpos (digits2_pos m) - 1)) by (apply pow2_le; lia).
    lia.
Qed.

Lemma finite_val_bounds s m e :
  valid_binary (S754_finite s m e) = true ->
  0 < Zpos m * 2 ^ (e + 1200) < 2 ^ 2224.
Proof.
  intros (He & Hm & _)%valid_mantissa.
  pose proof (pow2_pos (e + 1200) ltac:(lia)) as Hp.
  assert (2 ^ 53 * 2 ^ (e + 1200) <= 2 ^ 2224).
  { rewrite <- pow2_split by lia. apply pow2_le. lia. }
  nia.
Qed.

Lemma finite_compare m1 e1 m2 e2 :
  valid_binary (S754_finite false m1 e1) = true ->
  valid_binary (S754_finite false m2 e2) = true ->
  match e1 ?= e2 with
  | Lt => Lt
  | Gt => Gt
  | Eq => Pos.compare_cont Eq m1 m2
  end = (Zpos m1 * 2 ^ (e1 + 1200) ?= Zpos m2 * 2 ^ (e2 + 1200)).
Proof.
  intros (He1 & Hm1 & Hn1)%valid_mantissa (He2 & Hm2 & Hn2)%valid_mantissa.
  pose proof (pow2_pos (e1 + 1200) ltac:(lia)) as Hp1.
  pose proof (pow2_pos (e2 + 1200) ltac:(lia)) as Hp2.
  symmetry. destruct (Z.compare_spec e1 e2) as [->|Hlt|Hgt].
  - change (Pos.compare_cont Eq m1 m2) with (Zpos m1 ?= Zpos m2).
    destruct (Z.compare_spec (Zpos m1) (Zpos m2)) as [E|E|E].
    + apply Z.compare_eq_iff. congruence.
    + apply Z.compare_lt_iff. nia.
    + apply Z.compare_gt_iff. nia.
  - apply Z.compare_lt_iff.
    assert (2 ^ 53 * 2 ^ (e1 + 1200) <= 2 ^ 52 * 2 ^ (e2 + 1200)).
    { rewrite <- !pow2_split by lia. apply pow2_le. lia. }
    specialize (Hn2 ltac:(lia)). nia.
  - apply Z.compare_gt_iff.
    assert (2 ^ 53 * 2 ^ (e2 + 1200) <= 2 ^ 52 * 2 ^ (e1 + 1200)).
    { rewrite <- !pow2_split by lia. apply pow2_le. lia. }
    specialize (Hn1 ltac:(lia)). nia.
Qed.

(** On valid floats other than NaN, the order of IEEE comparison is the
    order of values. *)
Lemma SFcompare_sval f g :
  valid_binary f = true -> valid_binary g = true ->
  is_nan_sf f = false -> is_nan_sf g = false ->
  SFcompare f g = Some (sval f ?= sval g).
Proof.
  intros Vf Vg Nf Ng.
  assert (0 < 2 ^ 2224) as HI by (apply pow2_pos; lia).
  assert (forall a b c, (a ?= b) = c -> Some c = Some (a ?= b)) as K
    by (by intros a b c <-).
  destruct f as [sf|sf| |sf mf ef], g as [sg|sg| |sg mg eg]; try done;
    try pose proof (finite_val_bounds _ _ _ Vf) as Bf;
    try pose proof (finite_val_bounds _ _ _ Vg) as Bg;
    try destruct sf; try destruct sg; cbn [SFcompare sval cond_Zopp];
    try (apply K;
         first [ apply Z.compare_eq_iff; lia
               | apply Z.compare_lt_iff; lia
               | apply Z.compare_gt_iff; lia ]).
  - f_equal. rewrite Z.compare_opp.
    assert (valid_binary (S754_finite false mf ef) = true) as Vf' by done.
    assert (valid_binary (S754_finite false mg eg) = true) as Vg' by done.
    rewrite <- (finite_compare mg eg mf ef Vg' Vf').
    rewrite (Z.compare_antisym ef eg).
    destruct (ef ?= eg); simpl; try done.
    change (Pos.compare_cont Eq mf mg) with (Pos.compare mf mg).
    change (Pos.compare_cont Eq mg mf) with (Pos.compare mg mf).
    by rewrite (Pos.compare_antisym mf mg).
  - f_equal. by apply finite_compare.
Qed.


Lemma iter_xO_val (m d : positive) :
  Zpos (Pos.iter xO m d) = Zpos m * 2 ^ Zpos d.
Proof.
  induction d as [|d IH] using Pos.peano_ind.
  - simpl. lia.
  - rewrite Pos.iter_succ, Pos2Z.inj_xO, IH, Pos2Z.inj_succ.
    rewrite Z.pow_succ_r by lia. lia.
Qed.

Lemma shl_align_spec m e e' :
  let r := shl_align m e e' in
  Zpos (fst r) = Zpos m * 2 ^ (e - snd r) /\ snd r = Z.min e e'.
Proof.
  unfold shl_align. destruct (e' - e) as [|d|d] eqn:E; cbn [fst snd].
  - split; [|lia]. rewrite Z.sub_diag. simpl. lia.
  - split; [|lia]. rewrite Z.sub_diag. simpl. lia.
  - split; [|lia]. rewrite iter_xO_val. f_equal. f_equal. lia.
Qed.

(** [binary_round] on a mantissa and an exponent of at least -1200:
    the correctly rounded value. *)
Lemma binary_round_val s (m : positive) e :
  -1200 <= e ->
  valid_binary (binary_round prec emax s m e) = true /\
  is_nan_sf (binary_round prec emax s m e) = false /\
  sval (binary_round prec emax s m e)
  = cond_Zopp s (Rnd (Zpos m * 2 ^ (e + 1200))).
Proof.
  intros He. unfold binary_round.
  set (fe := fexp prec emax (Zpos (digits2_pos m) + e)).
  pose proof (shl_align_spec m e fe) as [Hm He'].
  destruct (shl_align m e fe) as [mz ez]. cbn [fst snd] in *.
  assert (-1074 <= fe) by (unfold fe; rewrite fexp_eq; lia).
  assert (Zpos (digits2_pos mz) + ez = Zpos (digits2_pos m) + e) as Hd.
  { rewrite !digits2_pos_log2, Hm, Z.log2_mul_pow2 by lia. lia. }
  assert (Zpos mz * 2 ^ (ez + 1200) = Zpos m * 2 ^ (e + 1200)) as Hv.
  { rewrite Hm, <- Z.mul_assoc, <- pow2_split by lia. f_equal. f_equal. lia. }
  rewrite <- Hv. apply bra_val; [|lia].
  rewrite Hd. fold fe. lia.
Qed.

Lemma Rnd_overflow v : 2 ^ 2224 <= v -> Rnd v = 2 ^ 2224.
Proof.
  intros Hv. unfold Rnd.
  assert (0 < 2 ^ 2224) by (apply pow2_pos; lia).
  assert (2224 <= Z.log2 v).
  { rewrite <- (Z.log2_pow2 2224) by lia. apply Z.log2_le_mono. done. }
  replace (Z.max (Z.log2 v + 1 - 53) 126) with (Z.log2 v - 52) by lia.
  set (g := Z.log2 v - 52).
  pose proof (Z.log2_spec v ltac:(lia)) as [S1 _].
  pose proof (pow2_pos g ltac:(lia)) as Hp.
  pose proof (rne_q_bounds v g ltac:(lia) ltac:(lia)) as [B _].
  assert (2 ^ 52 <= v / 2 ^ g).
  { apply Z.div_le_lower_bound; [done|].
    rewrite Z.mul_comm, <- pow2_split by lia.
    replace (52 + g) with (Z.log2 v) by lia. done. }
  assert (2 ^ 2224 <= 2 ^ 52 * 2 ^ g).
  { rewrite <- pow2_split by lia. apply pow2_le. lia. }
  apply Z.min_r. nia.
Qed.

(** The sum of two positive finite floats. *)
Lemma SFadd_pos_val mx ex my ey :
  valid_binary (S754_finite false mx ex) = true ->
  valid_binary (S754_finite false my ey) = true ->
  let r := SF64add (S754_finite false mx ex) (S754_finite false my ey) in
  valid_binary r = true /\ is_nan_sf r = false /\
  sval r = Rnd (Zpos mx * 2 ^ (ex + 1200) + Zpos my * 2 ^ (ey + 1200)).
Proof.
  intros (Hex & _)%valid_mantissa (Hey & _)%valid_mantissa.
  unfold SF64add, SFadd. cbn [cond_Zopp].
  set (ez := Z.min ex ey).
  pose proof (shl_align_spec mx ex ez) as [Hx Hx'].
  pose proof (shl_align_spec my ey ez) as [Hy Hy'].
  replace (Z.min ex ez) with ez in Hx' by lia.
  replace (Z.min ey ez) with ez in Hy' by lia.
  rewrite Hx' in Hx. rewrite Hy' in Hy.
  set (mx' := fst (shl_align mx ex ez)) in *.
  set (my' := fst (shl_align my ey ez)) in *.
  change (Zpos mx' + Zpos my') with (Zpos (mx' + my')).
  cbn [binary_normalize].
  replace (Zpos mx * 2 ^ (ex + 1200) + Zpos my * 2 ^ (ey + 1200))
    with (Zpos (mx' + my') * 2 ^ (ez + 1200)).
  { apply (binary_round_val false). lia. }
  rewrite Pos2Z.inj_add, Hx, Hy, Z.mul_add_distr_r.
  rewrite <- !Z.mul_assoc, <- !pow2_split by lia.
  f_equal; f_equal; f_equal; lia.
Qed.


Lemma leb_iff x y :
  (x <=? y)%float = true <-> number x /\ number y /\ fval x <= fval y.
Proof.
  rewrite FloatAxioms.leb_spec. unfold SFleb, number, fval.
  destruct (is_nan_sf (Prim2SF x)) eqn:Nx.
  { destruct (Prim2SF x); try done. simpl. split; [done|]. by intros [? _]. }
  destruct (is_nan_sf (Prim2SF y)) eqn:Ny.
  { destruct (Prim2SF y); try done.
    replace (SFcompare (Prim2SF x) S754_nan) with (@None comparison)
      by (by destruct (Prim2SF x)).
    split; [done|]. by intros (_ & ? & _). }
  rewrite SFcompare_sval by (done || apply Prim2SF_valid).
  destruct (Z.compare_spec (sval (Prim2SF x)) (sval (Prim2SF y))); split;
    try done; try lia; by intros (_ & _ & ?); lia.
Qed.

Lemma ltb_iff x y :
  (x <? y)%float = true <-> number x /\ number y /\ fval x < fval y.
Proof.
  rewrite FloatAxioms.ltb_spec. unfold SFltb, number, fval.
  destruct (is_nan_sf (Prim2SF x)) eqn:Nx.
  { destruct (Prim2SF x); try done. simpl. split; [done|]. by intros [? _]. }
  destruct (is_nan_sf (Prim2SF y)) eqn:Ny.
  { destruct (Prim2SF y); try done.
    replace (SFcompare (Prim2SF x) S754_nan) with (@None comparison)
      by (by destruct (Prim2SF x)).
    split; [done|]. by intros (_ & ? & _). }
  rewrite SFcompare_sval by (done || apply Prim2SF_valid).
  destruct (Z.compare_spec (sval (Prim2SF x)) (sval (Prim2SF y))); split;
    try done; try lia; by intros (_ & _ & ?); lia.
Qed.

Lemma eqb_iff x y :
  (x =? y)%float = true <-> number x /\ number y /\ fval x = fval y.
Proof.
  rewrite FloatAxioms.eqb_spec. unfold SFeqb, number, fval.
  destruct (is_nan_sf (Prim2SF x)) eqn:Nx.
  { destruct (Prim2SF x); try done. simpl. split; [done|]. by intros [? _]. }
  destruct (is_nan_sf (Prim2SF y)) eqn:Ny.
  { destruct (Prim2SF y); try done.
    replace (SFcompare (Prim2SF x) S754_nan) with (@None comparison)
      by (by destruct (Prim2SF x)).
    split; [done|]. by intros (_ & ? & _). }
  rewrite SFcompare_sval by (done || apply Prim2SF_valid).
  destruct (Z.compare_spec (sval (Prim2SF x)) (sval (Prim2SF y))); split;
    try done; try lia; by intros (_ & _ & ?); lia.
Qed.

Lemma is_nan_number x : number x -> is_nan x = false.
Proof.
  intros Hn. unfold is_nan.
  assert ((x =? x)%float = true) as -> by (by apply eqb_iff). done.
Qed.

Lemma fval_bounds x : - 2 ^ 2224 <= fval x <= 2 ^ 2224.
Proof.
  unfold fval. pose proof (Prim2SF_valid x) as V.
  assert (0 < 2 ^ 2224) by (apply pow2_pos; lia).
  destruct (Prim2SF x) as [s|s| |s m e]; cbn [sval]; try lia.
  - destruct s; simpl; lia.
  - pose proof (finite_val_bounds _ _ _ V). destruct s; simpl; lia.
Qed.


Lemma fval_eps : fval 1e-10 = v_eps.
Proof. reflexivity. Qed.

Lemma Rnd_eps : Rnd v_eps = v_eps.
Proof. vm_compute. reflexivity. Qed.

Lemma v_eps_pos : 0 < v_eps.
Proof. vm_compute. reflexivity. Qed.

(** [x + 1e-10] for a number [x >= 0]: the rounded sum of the values. *)
Lemma add_eps_val x :
  number x -> 0 <= fval x ->
  number (x + 1e-10)%float /\ fval (x + 1e-10)%float = Rnd (fval x + v_eps).
Proof.
  unfold number, fval. rewrite add_spec.
  pose proof (Prim2SF_valid x) as V.
  change (Prim2SF 1e-10) with (S754_finite false 7737125245533627 (-86)).
  assert (0 < 2 ^ 2224) by (apply pow2_pos; lia).
  pose proof v_eps_pos as Hpos.
  destruct (Prim2SF x) as [s|s| |s m e]; cbn [sval]; intros N Hx.
  - split; [reflexivity|]. rewrite Z.add_0_l, Rnd_eps. reflexivity.
  - destruct s; [simpl in Hx; lia|].
    split; [reflexivity|]. cbn [SF64add SFadd sval cond_Zopp].
    rewrite Rnd_overflow; [reflexivity|lia].
  - discriminate N.
  - pose proof (finite_val_bounds _ _ _ V).
    destruct s; [simpl in Hx; lia|].
    cbn [cond_Zopp].
    pose proof (SFadd_pos_val m e 7737125245533627 (-86) V eq_refl)
      as (_ & Hn & Hs).
    split; [done|]. rewrite Hs. reflexivity.
Qed.

Lemma Rnd_0 : Rnd 0 = 0.
Proof. vm_compute. reflexivity. Qed.

Lemma Rnd10_mono v w : v <= w -> Rnd10 v <= Rnd10 w.
Proof.
  intros H. unfold Rnd10.
  destruct (Z.leb_spec 0 v), (Z.leb_spec 0 w); try lia.
  - destruct (Z.eq_dec v 0) as [->|].
    + change (10 * 0) with 0. rewrite Rnd_0. apply Rnd_nonneg. lia.
    + apply Rnd_mono. lia.
  - pose proof (Rnd_nonneg (10 * - v) ltac:(lia)).
    pose proof (Rnd_nonneg (10 * w) ltac:(lia)). lia.
  - assert (Rnd (10 * - w) <= Rnd (10 * - v)) by (apply Rnd_mono; lia). lia.
Qed.

(** [10 * a] for a number [a]. *)
Lemma mul10_val a :
  number a ->
  number (10 * a)%float /\ fval (10 * a)%float = Rnd10 (fval a).
Proof.
  unfold number, fval. rewrite mul_spec.
  pose proof (Prim2SF_valid a) as V.
  change (Prim2SF 10) with (S754_finite false 5629499534213120 (-49)).
  assert (0 < 2 ^ 2224) by (apply pow2_pos; lia).
  destruct (Prim2SF a) as [s|s| |s m e]; cbn [sval]; intros N.
  - split; [reflexivity|]. cbn [SF64mul SFmul sval].
    unfold Rnd10. change (0 <=? 0) with true. cbn iota.
    change (10 * 0) with 0. by rewrite Rnd_0.
  - split; [reflexivity|]. cbn [SF64mul SFmul sval xorb]. unfold Rnd10.
    destruct s; cbn [cond_Zopp].
    + destruct (Z.leb_spec 0 (- 2 ^ 2224)); [lia|].
      rewrite Rnd_overflow; lia.
    + destruct (Z.leb_spec 0 (2 ^ 2224)); [|lia].
      rewrite Rnd_overflow; lia.
  - discriminate N.
  - pose proof (finite_val_bounds _ _ _ V) as B.
    apply valid_mantissa in V as (He & Hm & _).
    cbn [SF64mul SFmul xorb].
    assert (-49 + e <= fexp prec emax
              (Zpos (digits2_pos (5629499534213120 * m)) + (-49 + e))) as Hk.
    { rewrite fexp_eq, digits2_pos_log2.
      assert (52 <= Z.log2 (Zpos (5629499534213120 * m))).
      { change 52 with (Z.log2 (2 ^ 52)). apply Z.log2_le_mono.
        rewrite Pos2Z.inj_mul. change (2 ^ 52) with 4503599627370496. lia. }
      lia. }
    pose proof (bra_val s (5629499534213120 * m) (-49 + e) Hk ltac:(lia))
      as (_ & Hn & Hs).
    split; [done|]. rewrite Hs.
    assert (Zpos (5629499534213120 * m) * 2 ^ (-49 + e + 1200)
            = 10 * (Zpos m * 2 ^ (e + 1200))) as ->.
    { rewrite Pos2Z.inj_mul.
      replace (e + 1200) with (49 + (-49 + e + 1200)) by lia.
      rewrite (pow2_split 49 (-49 + e + 1200)) by lia.
      change (2 ^ 49) with 562949953421312.
      change (Zpos 5629499534213120) with (10 * 562949953421312). ring. }
    unfold Rnd10. destruct s; cbn [cond_Zopp].
    + destruct (Z.leb_spec 0 (- (Zpos m * 2 ^ (e + 1200)))); [lia|].
      by rewrite Z.opp_involutive.
    + destruct (Z.leb_spec 0 (Zpos m * 2 ^ (e + 1200))); [done|lia].
Qed.

(** Multiplication by 10 is non-decreasing. *)
Lemma mul10_mono a b :
  (a <=? b)%float = true -> (10 * a <=? 10 * b)%float = true.
Proof.
  intros (Na & Nb & Hab)%leb_iff. apply leb_iff.
  destruct (mul10_val a Na) as [Na' ->].
  destruct (mul10_val b Nb) as [Nb' ->].
  split; [done|]. split; [done|]. by apply Rnd10_mono.
Qed.

(** Adding [1e-10] to a number [x >= 0] is non-decreasing, and the sum
    is at least [1e-10]. *)
Lemma add_eps_mono x y :
  (0 <=? x)%float = true -> (x <=? y)%float = true ->
  (1e-10 <=? x + 1e-10)%float = true /\
  (x + 1e-10 <=? y + 1e-10)%float = true.
Proof.
  intros (_ & Nx & H0)%leb_iff (_ & Ny & Hxy)%leb_iff.
  change (fval 0) with 0 in H0.
  destruct (add_eps_val x Nx H0) as [Nx' Vx].
  destruct (add_eps_val y Ny ltac:(lia)) as [Ny' Vy].
  pose proof v_eps_pos.
  split; apply leb_iff.
  - split; [done|]. split; [done|]. rewrite Vx, fval_eps, <- Rnd_eps at 1.
    apply Rnd_mono. lia.
  - split; [done|]. split; [done|]. rewrite Vx, Vy. apply Rnd_mono. lia.
Qed.


End Binary64.


(** ** Comparisons of binary64 numbers *)

Section Decibels.

Local Open Scope float_scope.

Lemma leb_trans x y z :
  (x <=? y) = true -> (y <=? z) = true -> (x <=? z) = true.
Proof.
  intros (Nx & Ny & H1)%leb_iff (_ & Nz & H2)%leb_iff.
  apply leb_iff. split; [done|]. split; [done|]. lia.
Qed.

Lemma ltb_irrefl x : (x <? x) = false.
Proof.
  destruct (x <? x) eqn:E; [|done].
  apply ltb_iff in E as (_ & _ & H). lia.
Qed.

(** [log10] on a number that is at least [1e-10]. *)
Lemma log10_pos lf a :
  (1e-10 <=? a) = true ->
  log10 lf a = if a =? infinity then infinity else lf a.
Proof.
  intros (_ & Na & Ha)%leb_iff. unfold log10.
  rewrite is_nan_number by done.
  rewrite fval_eps in Ha. pose proof v_eps_pos.
  destruct (a <? 0) eqn:E1.
  { apply ltb_iff in E1 as (_ & _ & H1). change (fval 0) with 0%Z in H1. lia. }
  destruct (a =? 0) eqn:E2.
  { apply eqb_iff in E2 as (_ & _ & H2). change (fval 0) with 0%Z in H2. lia. }
  done.
Qed.

(** ** C2: the decibel conversion is non-decreasing *)

(** C2 (as amended).  For numbers [0 <= x <= y]: the argument of the
    logarithm, [x + 1e-10], is at least [1e-10], so never zero, and is
    non-decreasing in [x]; the conversion is non-decreasing wherever the
    logarithm is on these arguments, the product by 10 being
    non-decreasing; [dB 0] is [10 * log10 1e-10], a finite number as soon
    as that logarithm lies within [-400, 400]. *)
Theorem dB_monotone (lf : float → float) (x y : float) :
  (0 <=? x) = true → (x <=? y) = true →
  (log10 lf (x + 1e-10) <=? log10 lf (y + 1e-10)) = true →
  (1e-10 <=? x + 1e-10) = true ∧
  (x + 1e-10 <=? y + 1e-10) = true ∧
  (dB lf x <=? dB lf y) = true ∧
  dB lf 0 = 10 * lf 1e-10 ∧
  ((-400 <=? lf 1e-10) = true → (lf 1e-10 <=? 400) = true →
   (-4000 <=? dB lf 0) = true ∧ (dB lf 0 <=? 4000) = true).
Proof.
  intros H0 Hxy Hlog.
  destruct (add_eps_mono x y H0 Hxy) as [A1 A2].
  split; [done|]. split; [done|]. split.
  { unfold dB. by apply mul10_mono. }
  split; [reflexivity|].
  intros L1 L2. change (dB lf 0) with (10 * lf 1e-10). split.
  - change (-4000) with (10 * -400). by apply mul10_mono.
  - change 4000 with (10 * 400). by apply mul10_mono.
Qed.

(** From 0 to 1 with the reference logarithm. *)
Lemma dB_monotone_witness :
  (dB log10_ref 0 <=? dB log10_ref 1) = true.
Proof.
  apply (dB_monotone log10_ref 0 1); vm_compute; reflexivity.
Defined.

(** C2 (as stated) fails: the conversion is not strictly increasing.
    [0 + 1e-10] and [1e-30 + 1e-10] round to the same number, so 0 and
    1e-30 have the same dB value, whatever the logarithm. *)
Lemma dB_not_strictly_increasing :
  ∃ x y, (0 <=? x) = true ∧ (x <? y) = true ∧
    ∀ lf, dB lf x = dB lf y ∧ (dB lf x <? dB lf y) = false.
Proof.
  exists 0, 1e-30. split; [reflexivity|]. split; [reflexivity|].
  intros lf.
  assert (dB lf 0 = dB lf 1e-30) as E by reflexivity.
  split; [done|]. rewrite E. apply ltb_irrefl.
Qed.

Lemma fval_infinity : fval infinity = (2 ^ 2224)%Z.
Proof. reflexivity. Qed.

Lemma lt_infinity a :
  number a -> (a =? infinity) = false -> (a <? infinity) = true.
Proof.
  intros Na E. apply ltb_iff. split; [done|]. split; [done|].
  pose proof (fval_bounds a) as [_ B]. rewrite fval_infinity.
  destruct (Z.eq_dec (fval a) (2 ^ 2224)%Z) as [Ev|]; [|lia].
  assert ((a =? infinity) = true); [|congruence].
  apply eqb_iff. by rewrite fval_infinity.
Qed.

(** ** C3: the 2x2 scenario *)

(** C3 (as amended).  On the scenario raster cell 5 runs; every VV dB
    value is ten times the logarithm of [1 + 1e-10]; the VH dB value at
    (0, 0) is ten times the logarithm of [1e-10 + 1e-10], twice the
    sample; the pixel (1, 0), whose mask sample is 0, is flagged in both
    invalid masks, whatever the logarithm.  With a logarithm between 0
    and 1e-10 at [1 + 1e-10] the VV values lie in [0, 1e-9]; with one
    between -9.7 and -9.69 at [2e-10] the VH value at (0, 0) lies in
    [-97, -96.5]. *)
Theorem scenario_band_math (lf : float → float) :
  ∃ v h, cell5 lf scenario [] = Some (v, h) ∧
    (∀ i j, i < 2 → j < 2 →
       float_at h (vv_band_db v) i j = Some (10 * lf (1 + 1e-10))) ∧
    float_at h (vh_band_db v) 0 0 = Some (10 * lf (1e-10 + 1e-10)) ∧
    float_at h (datamask v) 1 0 = Some 0 ∧
    bool_at h (vv_invalid_mask v) 1 0 = Some true ∧
    bool_at h (vh_invalid_mask v) 1 0 = Some true ∧
    ((0 <=? lf (1 + 1e-10)) = true → (lf (1 + 1e-10) <=? 1e-10) = true →
       (0 <=? 10 * lf (1 + 1e-10)) = true ∧
       (10 * lf (1 + 1e-10) <=? 1e-9) = true) ∧
    ((-9.7 <=? lf (1e-10 + 1e-10)) = true →
     (lf (1e-10 + 1e-10) <=? -9.69) = true →
       (-97 <=? 10 * lf (1e-10 + 1e-10)) = true ∧
       (10 * lf (1e-10 + 1e-10) <=? -96.5) = true).
Proof.
  destruct (cell5_pixels lf scenario _ _ _ _ eq_refl) as (v & h & Hrun & Hpx).
  exists v, h. split; [done|].
  split; [|split; [|split; [|split; [|split; [|split]]]]].
  - intros i j Hi Hj.
    destruct (Hpx i j Hi Hj) as (_ & _ & _ & P & _).
    rewrite P. f_equal.
    destruct i as [|[|i]], j as [|[|j]]; try lia; reflexivity.
  - destruct (Hpx 0%nat 0%nat ltac:(simpl; lia) ltac:(simpl; lia))
      as (_ & _ & _ & _ & P & _).
    rewrite P. reflexivity.
  - destruct (Hpx 1%nat 0%nat ltac:(simpl; lia) ltac:(simpl; lia))
      as (_ & _ & P & _).
    rewrite P. reflexivity.
  - destruct (Hpx 1%nat 0%nat ltac:(simpl; lia) ltac:(simpl; lia))
      as (_ & _ & _ & _ & _ & P & _).
    rewrite P. reflexivity.
  - destruct (Hpx 1%nat 0%nat ltac:(simpl; lia) ltac:(simpl; lia))
      as (_ & _ & _ & _ & _ & _ & P & _).
    rewrite P. reflexivity.
  - intros L1 L2. split.
    + change 0 with (10 * 0) at 1. by apply mul10_mono.
    + change 1e-9 with (10 * 1e-10). by apply mul10_mono.
  - intros L1 L2. split.
    + change (-97) with (10 * -9.7). by apply mul10_mono.
    + apply leb_trans with (10 * -9.69); [by apply mul10_mono|reflexivity].
Qed.

(** The reference logarithm meets the bound at [2e-10]. *)
Lemma scenario_band_math_witness :
  (-97 <=? 10 * log10_ref (1e-10 + 1e-10)) = true ∧
  (10 * log10_ref (1e-10 + 1e-10) <=? -96.5) = true.
Proof.
  destruct (scenario_band_math log10_ref)
    as (v & h & _ & _ & _ & _ & _ & _ & _ & H).
  apply H; vm_compute; reflexivity.
Defined.

(** C3 (as stated) fails: run with the reference logarithm, the VH dB
    value at (0, 0) is -96.98..., above -97 and so more than 3 dB away
    from -100. *)
Lemma scenario_vh_is_not_minus_100 :
  ∃ v h d, cell5 log10_ref scenario [] = Some (v, h) ∧
    float_at h (vh_band_db v) 0 0 = Some d ∧
    d = (-96.989700043360187) ∧
    (d <=? -97) = false.
Proof.
  eexists _, _, _. split; [vm_compute; reflexivity|].
  split; [vm_compute; reflexivity|]. split; reflexivity.
Qed.


End Decibels.

(** ** The store of cell 5 *)

Lemma cell5_store lf src f1 f2 f3 rest :
  bands src = f1 :: f2 :: f3 :: rest →
  cell5 lf src []
  = Some (cell5_vars, cell5_heap lf (height src) (width src) f1 f2 f3).
Proof.
  intros Hb. unfold cell5, band_math, read. rewrite Hb.
  run. rewrite decide_True by shapes. run.
  rewrite decide_True by shapes. run.
  rewrite decide_True by shapes.
  rewrite decide_True by (simpl; lia). run.
  rewrite decide_True by shapes.
  rewrite decide_True by (simpl; lia). run.
  reflexivity.
Qed.

Lemma cell5_raises lf src :
  length (bands src) < 3 → cell5 lf src [] = None.
Proof.
  intros Hn. unfold cell5, band_math, read.
  destruct (bands src) as [|f1 [|f2 [|f3 rest]]]; simpl in Hn; try lia;
    reflexivity.
Qed.

(** Cell 5 raises exactly on a raster with fewer than three bands. *)
Theorem cell5_raises_iff (lf : float → float) (src : DatasetReader) :
  cell5 lf src [] = None ↔ length (bands src) < 3.
Proof.
  split; [|apply cell5_raises].
  intros Hnone. destruct (decide (length (bands src) < 3)) as [|Hge]; [done|].
  destruct (three_bands src ltac:(lia)) as (f1 & f2 & f3 & rest & Hb).
  rewrite (cell5_store lf src _ _ _ _ Hb) in Hnone. done.
Qed.

Lemma Forall_shape_heap lf hgt wid f1 f2 f3 :
  Forall (λ a, array_shape a = replicate hgt wid)
         (cell5_heap lf hgt wid f1 f2 f3).
Proof.
  unfold cell5_heap, db_array, noise_array, display_array.
  repeat constructor; cbn [array_shape]; shapes.
Qed.

(** Every array cell 5 creates, temporaries included, has the height and
    width of the raster. *)
Theorem cell5_shapes (lf : float → float) (src : DatasetReader) :
  3 ≤ length (bands src) →
  ∃ v h, cell5 lf src [] = Some (v, h) ∧ length h = 16 ∧
    ∀ r a, h !! r = Some a →
      array_shape a = replicate (height src) (width src).
Proof.
  intros (f1 & f2 & f3 & rest & Hb)%three_bands.
  eexists _, _. split; [by apply (cell5_store lf src _ _ _ _ Hb)|].
  split; [reflexivity|].
  intros r a Hr.
  pose proof (Forall_shape_heap lf (height src) (width src) f1 f2 f3) as HF.
  rewrite Forall_lookup in HF. by eapply HF.
Qed.

(** The scenario raster: sixteen arrays of two rows and two columns. *)
Lemma cell5_shapes_witness :
  ∃ v h, cell5 log10_ref scenario [] = Some (v, h) ∧ length h = 16 ∧
    ∀ r a, h !! r = Some a → array_shape a = replicate 2 2.
Proof.
  apply (cell5_shapes log10_ref scenario). simpl. lia.
Defined.

(** The variables of cell 5 are bound to twelve different objects of the
    store: no two of them alias. *)
Theorem cell5_no_alias (lf : float → float) (src : DatasetReader) :
  3 ≤ length (bands src) →
  ∃ v h, cell5 lf src [] = Some (v, h) ∧
    NoDup [vv_band_linear v; vh_band_linear v; datamask v;
           vv_band_db v; vh_band_db v; nodata_mask v;
           vv_noise_mask v; vh_noise_mask v;
           vv_invalid_mask v; vh_invalid_mask v;
           vv_display v; vh_display v] ∧
    Forall (λ r, r < length h)
          [vv_band_linear v; vh_band_linear v; datamask v;
           vv_band_db v; vh_band_db v; nodata_mask v;
           vv_noise_mask v; vh_noise_mask v;
           vv_invalid_mask v; vh_invalid_mask v;
           vv_display v; vh_display v].
Proof.
  intros (f1 & f2 & f3 & rest & Hb)%three_bands.
  eexists _, _. split; [by apply (cell5_store lf src _ _ _ _ Hb)|]. split.
  - cbn. by apply (bool_decide_unpack _).
  - cbn. repeat constructor.
Qed.

(** The scenario raster. *)
Lemma cell5_no_alias_witness :
  ∃ v h, cell5 log10_ref scenario [] = Some (v, h) ∧
    NoDup [vv_band_linear v; vh_band_linear v; datamask v;
           vv_band_db v; vh_band_db v; nodata_mask v;
           vv_noise_mask v; vh_noise_mask v;
           vv_invalid_mask v; vh_invalid_mask v;
           vv_display v; vh_display v] ∧
    Forall (λ r, r < length h)
          [vv_band_linear v; vh_band_linear v; datamask v;
           vv_band_db v; vh_band_db v; nodata_mask v;
           vv_noise_mask v; vh_noise_mask v;
           vv_invalid_mask v; vh_invalid_mask v;
           vv_display v; vh_display v].
Proof.
  apply (cell5_no_alias log10_ref scenario). simpl. lia.
Defined.

(** The VV arrays do not depend on the VH band, nor the VH arrays on the
    VV band: two rasters that differ in one polarization only give the
    same dB array, the same invalid mask and the same display array for
    the other. *)
Theorem polarizations_independent (lf : float → float)
    (hgt wid : nat) (vv vv' vh vh' dm : nat → nat → float)
    (rest rest' : list (nat → nat → float)) :
  let src1 := {| height := hgt; width := wid;
                 bands := vv :: vh :: dm :: rest |} in
  let src2 := {| height := hgt; width := wid;
                 bands := vv :: vh' :: dm :: rest' |} in
  let src3 := {| height := hgt; width := wid;
                 bands := vv' :: vh :: dm :: rest' |} in
  ∃ v h1 h2 h3,
    cell5 lf src1 [] = Some (v, h1) ∧
    cell5 lf src2 [] = Some (v, h2) ∧
    cell5 lf src3 [] = Some (v, h3) ∧
    h1 !! vv_band_db v = h2 !! vv_band_db v ∧
    h1 !! vv_invalid_mask v = h2 !! vv_invalid_mask v ∧
    h1 !! vv_display v = h2 !! vv_display v ∧
    h1 !! vh_band_db v = h3 !! vh_band_db v ∧
    h1 !! vh_invalid_mask v = h3 !! vh_invalid_mask v ∧
    h1 !! vh_display v = h3 !! vh_display v.
Proof.
  intros src1 src2 src3. eexists _, _, _, _.
  split; [by apply (cell5_store lf src1 vv vh dm rest)|].
  split; [by apply (cell5_store lf src2 vv vh' dm rest')|].
  split; [by apply (cell5_store lf src3 vv' vh dm rest')|].
  repeat split.
Qed.

(** ** The decibel scale and the noise threshold *)

Section DecibelFacts.

Local Open Scope float_scope.

Lemma number_is_nan x : is_nan x = false → number x.
Proof.
  unfold is_nan. intros H.
  assert ((x =? x) = true) as E by (by destruct (x =? x)).
  by apply eqb_iff in E as [? _].
Qed.

Lemma not_ltb_leb x y :
  number x → number y → (x <? y) = false → (y <=? x) = true.
Proof.
  intros Nx Ny H. apply leb_iff. split; [done|]. split; [done|].
  destruct (Z_lt_le_dec (fval x) (fval y)) as [Hlt|]; [|done].
  assert ((x <? y) = true); [by apply ltb_iff|congruence].
Qed.

Lemma leb_ltb_trans x y z :
  (x <=? y) = true → (y <? z) = true → (x <? z) = true.
Proof.
  intros (Nx & Ny & H1)%leb_iff (_ & Nz & H2)%ltb_iff.
  apply ltb_iff. split; [done|]. split; [done|]. lia.
Qed.

(** A pixel of a display array is NaN or at least -22: what is shown
    never lies below the lower end of the colour scale. *)
Theorem display_nan_or_in_scale (lf : float → float) (src : DatasetReader) :
  3 ≤ length (bands src) →
  ∃ v h, cell5 lf src [] = Some (v, h) ∧
    ∀ i j, (i < height src)%nat → (j < width src)%nat →
    ∃ d_vv d_vh,
      float_at h (vv_display v) i j = Some d_vv ∧
      float_at h (vh_display v) i j = Some d_vh ∧
      (is_nan d_vv = true ∨ (-22 <=? d_vv) = true) ∧
      (is_nan d_vh = true ∨ (-22 <=? d_vh) = true).
Proof.
  intros (f1 & f2 & f3 & rest & Hb)%three_bands.
  destruct (cell5_pixels lf src _ _ _ _ Hb) as (v & h & Hrun & Hpx).
  exists v, h. split; [done|]. intros i j Hi Hj.
  destruct (Hpx i j Hi Hj) as (_ & _ & _ & _ & _ & _ & _ & D1 & D2).
  eexists _, _. split; [exact D1|]. split; [exact D2|].
  assert (∀ m d, let x := if invalid_px m d then nan else d in
                 is_nan x = true ∨ (-22 <=? x) = true) as K.
  { intros m d. unfold invalid_px.
    destruct (m =? 0); [by left|]. simpl.
    destruct (d <? -22) eqn:E; [by left|].
    destruct (is_nan d) eqn:N; [by left|right].
    apply not_ltb_leb; [by apply number_is_nan|reflexivity|done]. }
  split; apply K.
Qed.

(** The scenario raster. *)
Lemma display_nan_or_in_scale_witness :
  ∃ v h, cell5 log10_ref scenario [] = Some (v, h) ∧
    ∀ i j, (i < 2)%nat → (j < 2)%nat →
    ∃ d_vv d_vh,
      float_at h (vv_display v) i j = Some d_vv ∧
      float_at h (vh_display v) i j = Some d_vh ∧
      (is_nan d_vv = true ∨ (-22 <=? d_vv) = true) ∧
      (is_nan d_vh = true ∨ (-22 <=? d_vh) = true).
Proof.
  apply (display_nan_or_in_scale log10_ref scenario). simpl. lia.
Defined.

(** What a non-decreasing logarithm is asked to satisfy: on the finite
    numbers from [1e-10] on. *)
Lemma dB_le (lf : float → float) :
  (∀ a b, (1e-10 <=? a) = true → (a <=? b) = true →
          (b <? infinity) = true → (lf a <=? lf b) = true) →
  ∀ x y, (0 <=? x) = true → (x <=? y) = true →
         (dB lf x <=? dB lf y) = true.
Proof.
  intros Hmono x y H0 Hxy.
  destruct (add_eps_mono x y H0 Hxy) as [A1 A2].
  unfold dB. apply mul10_mono.
  rewrite !log10_pos by (done || by eapply leb_trans).
  pose proof A2 as (Nx & Ny & Hv)%leb_iff.
  destruct (x + 1e-10 =? infinity) eqn:Ex, (y + 1e-10 =? infinity) eqn:Ey.
  - reflexivity.
  - apply eqb_iff in Ex as (_ & _ & Ex). rewrite fval_infinity in Ex.
    pose proof (fval_bounds (y + 1e-10)) as [_ B].
    assert ((y + 1e-10 =? infinity) = true); [|congruence].
    apply eqb_iff. rewrite fval_infinity.
    split; [done|]. split; [done|]. lia.
  - pose proof (lt_infinity _ Nx Ex) as Lx.
    pose proof (Hmono (x + 1e-10) (x + 1e-10) A1 ltac:(by apply leb_iff) Lx)
      as (Nl & _)%leb_iff.
    apply leb_iff. split; [done|]. split; [done|].
    rewrite fval_infinity. apply fval_bounds.
  - apply Hmono; try done. by apply lt_infinity.
Qed.

Lemma log10_step_mono a b :
  (a <=? b) = true → (log10_step a <=? log10_step b) = true.
Proof.
  intros Hab. unfold log10_step.
  destruct (a <? 1) eqn:Ea, (b <? 1) eqn:Eb; try reflexivity.
  pose proof Hab as (Na & Nb & _)%leb_iff.
  assert ((a <? 1) = true); [|congruence].
  by eapply leb_ltb_trans.
Qed.

(** The noise threshold, set on dB values, is a threshold on the linear
    samples too: with a non-decreasing logarithm, below a sample flagged
    as noise every sample from 0 on is flagged. *)
Theorem noise_mask_downward (lf : float → float) :
  (∀ a b, (1e-10 <=? a) = true → (a <=? b) = true →
          (b <? infinity) = true → (lf a <=? lf b) = true) →
  ∀ x y, (0 <=? y) = true → (y <=? x) = true →
    (dB lf x <? -22) = true →
    (dB lf y <? -22) = true ∧ ∀ m, invalid_px m (dB lf y) = true.
Proof.
  intros Hmono x y H0 Hyx Hx.
  assert ((dB lf y <=? dB lf x) = true) as Hle by (by apply dB_le).
  assert ((dB lf y <? -22) = true) as Hy by (by eapply leb_ltb_trans).
  split; [done|]. intros m. unfold invalid_px. rewrite Hy.
  by destruct (m =? 0).
Qed.

(** The coarse logarithm, samples 0.5 and 0.25. *)
Lemma noise_mask_downward_witness :
  (dB log10_step 0.25 <? -22) = true.
Proof.
  apply (noise_mask_downward log10_step) with (x := 0.5).
  - intros a b _ Hab _. by apply log10_step_mono.
  - reflexivity.
  - reflexivity.
  - reflexivity.
Defined.

(** A sample whose sum with [1e-10] is NaN or negative has a NaN dB
    value, whatever the logarithm; it is never flagged as noise, so its
    pixel is invalid only where the mask band is 0. *)
Theorem bad_sample_not_noise (lf : float → float) (x : float) :
  is_nan (x + 1e-10) = true ∨ (x + 1e-10 <? 0) = true →
  is_nan (dB lf x) = true ∧
  (dB lf x <? -22) = false ∧
  ∀ m, invalid_px m (dB lf x) = (m =? 0).
Proof.
  intros H.
  assert (log10 lf (x + 1e-10) = nan) as E.
  { unfold log10. destruct (is_nan (x + 1e-10)) eqn:N; [done|].
    destruct H as [H|H]; [congruence|]. by rewrite H. }
  assert (dB lf x = nan) as -> by (unfold dB; rewrite E; reflexivity).
  split; [reflexivity|]. split; [reflexivity|].
  intros m. unfold invalid_px. change (nan <? -22) with false.
  apply orb_false_r.
Qed.

(** The sample -1. *)
Lemma bad_sample_not_noise_witness :
  is_nan (dB log10_ref (-1)) = true.
Proof.
  apply (bad_sample_not_noise log10_ref (-1)). right. reflexivity.
Defined.

End DecibelFacts.

(** ** Samples lost in the sum with 1e-10 *)

Section Absorption.

Local Open Scope Z_scope.

(** Below half a unit in the last place of [1e-10], an addend is lost. *)
Lemma Rnd_absorb d : 0 <= d < 2 ^ 1113 -> Rnd (v_eps + d) = v_eps.
Proof.
  intros [H0 Hd]. unfold Rnd, v_eps.
  set (m := 7737125245533627).
  assert (0 < 2 ^ 1114) as Hp by (apply pow2_pos; lia).
  assert (2 ^ 1114 = 2 * 2 ^ 1113) as Hh.
  { change 1114 with (Z.succ 1113). rewrite Z.pow_succ_r; lia. }
  assert (Z.log2 (m * 2 ^ 1114 + d) = 1166) as ->.
  { apply Z.log2_unique; [lia|].
    change 1166 with (52 + 1114). change (Z.succ (52 + 1114)) with (53 + 1114).
    rewrite !pow2_split by lia.
    change (2 ^ 52) with 4503599627370496.
    change (2 ^ 53) with 9007199254740992. unfold m. lia. }
  change (Z.max (1166 + 1 - 53) 126) with 1114.
  assert ((m * 2 ^ 1114 + d) / 2 ^ 1114 = m) as Hq.
  { symmetry. apply Z.div_unique with d; lia. }
  assert ((m * 2 ^ 1114 + d) mod 2 ^ 1114 = d) as Hr.
  { symmetry. apply Z.mod_unique with m; lia. }
  unfold rne_q. rewrite Hq, Hr.
  destruct (Z.ltb_spec (2 * d) (2 ^ 1114)); [|lia].
  apply Z.min_l.
  assert (2 ^ 53 * 2 ^ 1114 <= 2 ^ 2224).
  { rewrite <- pow2_split by lia. apply pow2_le. lia. }
  change (2 ^ 53) with 9007199254740992 in *. unfold m. lia.
Qed.

(** Two valid floats that compare equal and are not zeros are the same. *)
Lemma SFcompare_Eq_eq f g :
  SFcompare f g = Some Eq -> sval f <> 0 -> f = g.
Proof.
  destruct f as [sf|sf| |sf mf ef], g as [sg|sg| |sg mg eg];
    cbn [SFcompare sval]; intros H Hne; try done;
    try (by destruct sf); try (by destruct sg); try (by destruct sf, sg).
  assert (sf = sg /\ (ef ?= eg) = Eq /\ Pos.compare_cont Eq mf mg = Eq)
    as (-> & He & Hm).
  { destruct sf, sg; try done;
      destruct (ef ?= eg); try done;
      destruct (Pos.compare_cont Eq mf mg); done. }
  apply Z.compare_eq in He as ->.
  apply Pos.compare_eq in Hm as ->. done.
Qed.

Lemma fval_inj x y :
  number x -> number y -> fval x = fval y -> fval x <> 0 -> x = y.
Proof.
  intros Nx Ny E Hne. apply Prim2SF_inj.
  apply SFcompare_Eq_eq; [|done].
  rewrite SFcompare_sval by (done || apply Prim2SF_valid).
  unfold fval in E. rewrite E. by rewrite Z.compare_refl.
Qed.

End Absorption.

Section AbsorptionFloat.

Local Open Scope float_scope.

(** Every sample from 0 up to, but not including, [2^-87] (about
    6.5e-27) is lost in the sum with [1e-10]: it gets the dB value of a
    sample of 0, whatever the logarithm. *)
Theorem small_samples_absorbed (lf : float → float) (x : float) :
  (0 <=? x) = true → (x <? 0x1p-87) = true →
  (x + 1e-10)%float = 1e-10 ∧ dB lf x = dB lf 0.
Proof.
  intros (_ & Nx & H0)%leb_iff (_ & _ & Hx)%ltb_iff.
  change (fval 0) with 0%Z in H0.
  change (fval 0x1p-87) with (2 ^ 1113)%Z in Hx.
  destruct (add_eps_val x Nx H0) as [Ns Vs].
  assert ((x + 1e-10)%float = 1e-10) as E.
  { apply fval_inj; [done|reflexivity| |].
    - rewrite Vs, Z.add_comm, Rnd_absorb by lia. by rewrite fval_eps.
    - rewrite Vs, Z.add_comm, Rnd_absorb by lia. pose proof v_eps_pos. lia. }
  split; [done|]. unfold dB. rewrite E. reflexivity.
Qed.

(** The sample 1e-27. *)
Lemma small_samples_absorbed_witness :
  dB log10_ref 1e-27 = dB log10_ref 0.
Proof.
  apply (small_samples_absorbed log10_ref 1e-27); reflexivity.
Defined.

End AbsorptionFloat.

(** ** The compound path on any shapefile *)

Lemma length_inner_codes n : length (inner_codes n) = 2 + (n - 2).
Proof.
  unfold inner_codes. rewrite !length_app, length_replicate. simpl. lia.
Qed.

Lemma filter_moveto_lineto k : filter is_moveto (replicate k LINETO) = [].
Proof. induction k as [|k IH]; [done|]. simpl. done. Qed.

(** The path of a single-part first geometry. *)
Lemma compound_path_single g rest cs xlim ylim :
  inner_coords g = Ok cs →
  compound_path (g :: rest) xlim ylim
  = if decide (2 ≤ length cs)
    then Ok {| vertices := outer_coords xlim ylim ++ cs;
               codes := outer_codes ++ inner_codes (length cs) |}
    else Raise value_error.
Proof.
  intros Hg. unfold compound_path. cbn [iloc0]. rewrite Hg. unfold mkPath.
  rewrite !length_app, length_inner_codes. cbn [length outer_coords outer_codes].
  destruct (decide (2 ≤ length cs));
    [rewrite decide_True by lia|rewrite decide_False by lia]; done.
Qed.



(** Whenever the overlay succeeds, on a polygon or a line string alike,
    the path is well formed: one code per vertex; the five vertices of
    the axes rectangle first, the ring closing where it starts; then the
    coordinates of the first geometry as a second subpath, opened by the
    only other [MOVETO] and closed by [CLOSEPOLY]. *)
Theorem compound_path_well_formed (shp : list geometry)
    (xlim ylim : float * float) (p : Path) :
  compound_path shp xlim ylim = Ok p →
  length (vertices p) = length (codes p) ∧
  7 ≤ length (codes p) ∧
  take 5 (vertices p) = outer_coords xlim ylim ∧
  vertices p !! 0 = vertices p !! 4 ∧
  take 5 (codes p) = outer_codes ∧
  codes p !! 5 = Some MOVETO ∧
  last (codes p) = Some CLOSEPOLY ∧
  length (filter is_moveto (codes p)) = 2 ∧
  ∃ g rest, shp = g :: rest ∧ inner_coords g = Ok (drop 5 (vertices p)).
Proof.
  destruct shp as [|g rest]; [done|].
  destruct (inner_coords g) as [cs|e'] eqn:Hg.
  2:{ unfold compound_path. cbn [iloc0]. by rewrite Hg. }
  rewrite (compound_path_single g rest cs xlim ylim Hg).
  destruct (decide (2 ≤ length cs)) as [Hn|]; [|done].
  intros [= <-]. cbn [vertices codes length].
  rewrite length_inner_codes.
  split; [lia|]. split; [lia|]. split; [done|]. split; [done|].
  split; [done|]. split; [done|]. split; [|split].
  - change (last (outer_codes ++ inner_codes (length cs)) = Some CLOSEPOLY).
    unfold inner_codes. rewrite !app_assoc. apply last_snoc.
  - change (length (filter is_moveto
                      (outer_codes ++ inner_codes (length cs))) = 2).
    unfold inner_codes. rewrite !filter_app, filter_moveto_lineto. done.
  - exists g, rest. done.
Qed.

(** A line string of three points. *)
Lemma compound_path_well_formed_witness :
  last (outer_codes ++ inner_codes 3) = Some CLOSEPOLY.
Proof.
  apply (compound_path_well_formed
           [LineString [(0, 0); (1, 0); (1, 1)]%float]
           (0, 2)%float (0, 2)%float
           {| vertices := outer_coords (0, 2)%float (0, 2)%float
                          ++ [(0, 0); (1, 0); (1, 1)]%float;
              codes := outer_codes ++ inner_codes 3 |}).
  reflexivity.
Defined.

(** ** The runs of the script *)

Lemma cell2_eq w a b :
  cell2 w a b =
  match fetch_token w a b with
  | Ok tok => ([FetchToken a b;
                Print "Authentication successful. Token obtained."],
               inr (Some tok))
  | Raise e =>
      if exn_is_Exception e
      then ([FetchToken a b; Print ("Authentication failed: " +:+ exn_str e)],
            inr None)
      else ([FetchToken a b], inl (Uncaught e))
  end.
Proof.
  unfold cell2, try_except, call. destruct (fetch_token w a b) as [tok|e]; [done|].
  cbn. by destruct (exn_is_Exception e).
Qed.

Lemma cell3_eq w :
  cell3 w =
  match evalscript_js w with
  | Ok es => ([ReadFile "evalscript.js"; Print "Request payload defined.";
               Print ("Requesting data for BBox: "
             +:+ "[694512.806609, 5666404.740308, 694896.980069, 5666790.60716]"
             +:+ " in time range: "
             +:+ "2023-06-01T00:00:00Z/2023-06-30T23:59:59Z")], inr es)
  | Raise e => ([ReadFile "evalscript.js"], inl (Uncaught e))
  end.
Proof. unfold cell3, call. by destruct (evalscript_js w). Qed.

Lemma cell4_eq w tok es :
  cell4 w tok es =
  match post w tok es with
  | Ok resp =>
      if (status_code resp =? 200)%Z
      then ([Post tok;
             Print ("Successfully received image data ("
                    +:+ pretty (length (content resp)) +:+ " bytes).")],
            inr (Some (content resp)))
      else ([Post tok;
             Print ("Request failed: " +:+ pretty (status_code resp))],
            inr None)
  | Raise e => ([Post tok], inl (Uncaught e))
  end.
Proof.
  unfold cell4, call. destruct (post w tok es) as [resp|e]; [|done].
  cbn -[pretty String.app]. by destruct (status_code resp =? 200)%Z.
Qed.

Lemma script_bind_eq {A B} (m : Script A) (f : A → Script B) :
  m ≫= f
  = match m.2 with
    | inl s => (m.1, inl s)
    | inr a => (m.1 ++ (f a).1, (f a).2)
    end.
Proof.
  destruct m as [t [s|a]]; [done|]. unfold mbind, Script_bind. simpl.
  by destruct (f a).
Qed.

(** The lines cell 5 prints after opening the raster. *)
Abbreviation opened w img src :=
  [RasterOpen img;
   Print ("Opened image with " +:+ pretty (length (bands src)) +:+ " bands.");
   Print ("CRS: " +:+ crs_str w src)].

Abbreviation shown lf src f1 f2 f3 :=
  [Imshow 0 (display_array (db_array lf (tabulate2 (height src) (width src) f1))
     (azip orb (amap (λ x, x =? 0)%float (tabulate2 (height src) (width src) f3))
        (noise_array (db_array lf (tabulate2 (height src) (width src) f1)))));
   Imshow 1 (display_array (db_array lf (tabulate2 (height src) (width src) f2))
     (azip orb (amap (λ x, x =? 0)%float (tabulate2 (height src) (width src) f3))
        (noise_array (db_array lf (tabulate2 (height src) (width src) f2)))));
   ReadFile "input/VL_kinrooi_2023.shp"].

(** Cell 5, case by case. *)
Lemma cell5_script_eq lf w ib :
  cell5_script lf w ib =
  match ib with
  | None | Some [] =>
      ([Print "No image data available for visualization."], inl Exit)
  | Some img =>
      match rasterio_open w img with
      | Raise e => ([RasterOpen img], inl (Uncaught e))
      | Ok src =>
          match bands src with
          | f1 :: f2 :: f3 :: _ =>
              match read_shapefile w with
              | Raise e =>
                  (opened w img src ++ shown lf src f1 f2 f3,
                   inl (Uncaught e))
              | Ok shp =>
                  let shp_utm := map_geometry (to_utm w) <$> shp in
                  match compound_path shp_utm (get_xlim w 0) (get_ylim w 0)
                  with
                  | Raise e =>
                      (opened w img src ++ shown lf src f1 f2 f3,
                       inl (Uncaught e))
                  | Ok p0 =>
                      match compound_path shp_utm (get_xlim w 1)
                              (get_ylim w 1)
                      with
                      | Raise e =>
                          (opened w img src ++ shown lf src f1 f2 f3
                             ++ [AddPatch 0 p0],
                           inl (Uncaught e))
                      | Ok p1 =>
                          (opened w img src ++ shown lf src f1 f2 f3
                             ++ [AddPatch 0 p0; AddPatch 1 p1; Show;
                                 RasterClose],
                           inr (cell5_vars,
                                cell5_heap lf (height src) (width src)
                                  f1 f2 f3))
                      end
                  end
              end
          | _ => (opened w img src, inl (Uncaught numpy_error))
          end
      end
  end.
Proof.
  unfold cell5_script. destruct ib as [[|b img]|]; [reflexivity| |reflexivity].
  cbn [not_bytes default from_option id]. unfold call.
  destruct (rasterio_open w (b :: img)) as [src|e]; [|reflexivity].
  rewrite script_bind_eq. cbn [fst snd]. rewrite script_bind_eq. cbn [fst snd print emit].
  rewrite script_bind_eq. cbn [fst snd print emit].
  rewrite script_bind_eq. unfold run_cell.
  destruct (bands src) as [|f1 [|f2 [|f3 rest]]] eqn:Hb;
    try (rewrite cell5_raises by (rewrite Hb; simpl; lia); reflexivity).
  rewrite (cell5_store lf src _ _ _ _ Hb). cbn [fst snd mret Script_ret].
  unfold overlay, lift_result, call, emit.
  cbn -[compound_path pretty String.app map_geometry tabulate2 amap azip].
  destruct (read_shapefile w) as [shp|e];
    cbn -[compound_path pretty String.app map_geometry tabulate2 amap azip];
    [|reflexivity].
  destruct (compound_path _ (get_xlim w 0) (get_ylim w 0)) as [p0|e];
    cbn -[compound_path pretty String.app map_geometry tabulate2 amap azip];
    [|reflexivity].
  destruct (compound_path _ (get_xlim w 1) (get_ylim w 1)) as [p1|e];
    cbn -[compound_path pretty String.app map_geometry tabulate2 amap azip];
    reflexivity.
Qed.

(** Cell 1 only prints. *)
Lemma cell1_lines w :
  ∃ lines,
    cell1 w = (Print <$> lines,
               inr (environ w "CLIENT_ID", environ w "CLIENT_SECRET")).
Proof.
  unfold cell1. destruct (not_str _ || not_str _).
  - by exists ["FATAL: CLIENT_ID or CLIENT_SECRET not found.";
               "Please ensure you have a .env file with your credentials.";
               "Configuration loaded and ready."].
  - by exists ["Credentials successfully loaded from .env file.";
               "Configuration loaded and ready."].
Qed.

Lemma filter_prints (P : event → bool) lines :
  (∀ s, P (Print s) = false) → filter P (Print <$> lines) = [].
Proof.
  intros HP. induction lines as [|s lines IH]; [done|].
  rewrite fmap_cons, filter_cons, HP. done.
Qed.

(** The runs of the script, case by case: what the token exchange, the
    evalscript, the request, the raster and the shapefile give. *)
Ltac main_cases w :=
  let lines := fresh "lines" in
  let H1 := fresh "H1" in
  unfold main;
  destruct (cell1_lines w) as (lines & H1);
  rewrite (script_bind_val _ _ _ _ H1); cbn [fst snd];
  rewrite cell2_eq;
  destruct (fetch_token w (environ w "CLIENT_ID") (environ w "CLIENT_SECRET"))
    as [?tok|?e] eqn:?Hfetch;
    [|destruct (exn_is_Exception _) eqn:?Hexn];
  rewrite script_bind_eq; cbn [fst snd];
  try (rewrite cell3_eq;
       destruct (evalscript_js w) as [?es|?e] eqn:?Hes;
       rewrite script_bind_eq; cbn [fst snd];
       try (rewrite script_bind_eq, cell4_eq;
            match goal with
            | |- context [post w ?t ?s] =>
                destruct (post w t s) as [?resp|?e] eqn:?Hpost;
                [destruct (status_code _ =? 200)%Z eqn:?Hstatus|];
                cbn [fst snd]; try rewrite cell5_script_eq
            end)).

Ltac cell5_cases w :=
  repeat (match goal with
    | |- context [match content ?r with _ => _ end] =>
        destruct (content r) as [|?b ?img] eqn:?Hcontent
    | |- context [match rasterio_open w ?i with _ => _ end] =>
        destruct (rasterio_open w i) as [?src|?e] eqn:?Hopen
    | |- context [match bands ?s with _ => _ end] =>
        destruct (bands s) as [|?f1 [|?f2 [|?f3 ?rest]]] eqn:?Hbands
    | |- context [match read_shapefile w with _ => _ end] =>
        destruct (read_shapefile w) as [?shp|?e] eqn:?Hshp
    | |- context [match compound_path ?s ?x ?y with _ => _ end] =>
        destruct (compound_path s x y) as [?p|?e] eqn:?Hpath
    end; cbv zeta);
  cbn [fst snd].

(** An event of an explicit trace is one of its elements. *)
Ltac trace_in H :=
  repeat first
    [ apply elem_of_app in H as [H|H]
    | apply elem_of_cons in H as [H|H]
    | apply elem_of_nil in H; destruct H
    | apply list_elem_of_fmap in H as (? & H & _) ];
  try discriminate H.

Ltac trace_mem :=
  repeat first
    [ apply list_elem_of_here
    | apply elem_of_app; right
    | apply list_elem_of_further ].

(** In every run the token exchange is attempted once, at most one
    request is sent and at most one raster opened: nothing is retried. *)
Theorem one_request (lf : float → float) (w : World) :
  length (filter is_fetch_token (main lf w).1) = 1 ∧
  length (filter is_post (main lf w).1) ≤ 1 ∧
  length (filter is_raster_open (main lf w).1) ≤ 1.
Proof.
  main_cases w; cell5_cases w;
    rewrite !filter_app, !filter_prints by done;
    (split; [|split]); vm_compute; lia.
Qed.

(** A raster is opened only on the body of a response with status 200,
    and that body is not empty. *)
Theorem raster_needs_image (lf : float → float) (w : World)
    (img : list Byte.byte) :
  RasterOpen img ∈ (main lf w).1 →
  img ≠ [] ∧
  ∃ tok es resp, post w tok es = Ok resp ∧
    status_code resp = 200%Z ∧ content resp = img.
Proof.
  main_cases w; cell5_cases w; intros H; trace_in H;
    injection H as ->;
    (split; [done|]); eexists _, _, _;
    (split; [eassumption|]); (split; [by apply Z.eqb_eq|done]).
Qed.

(** The 200 response of the example. *)
Lemma raster_needs_image_witness :
  tiff_magic ≠ [] ∧
  ∃ tok es resp,
    post example_world tok es = Ok resp ∧
    status_code resp = 200%Z ∧ content resp = tiff_magic.
Proof.
  apply (raster_needs_image log10_ref
           example_world).
  apply (list_elem_of_lookup_2 _ 9). vm_compute. reflexivity.
Defined.

(** The figure is shown and the raster closed exactly in the runs that
    reach the last line: a run that ends early, by [exit()] or by an
    exception, shows nothing and leaves an opened raster unclosed. *)
Theorem close_only_at_end (lf : float → float) (w : World) :
  (RasterClose ∈ (main lf w).1 ↔ ∃ r, (main lf w).2 = inr r) ∧
  (Show ∈ (main lf w).1 ↔ ∃ r, (main lf w).2 = inr r) ∧
  ((∃ r, (main lf w).2 = inr r) → last (main lf w).1 = Some RasterClose).
Proof.
  main_cases w; cell5_cases w;
    (split; [|split]);
    first
      [ by intros [r [=]]
      | split; [intros H; by trace_in H | by intros [r [=]]]
      | split; [by eauto | intros _; trace_mem]
      | intros _; rewrite !app_assoc;
        change [AddPatch 0 ?p; AddPatch 1 ?q; Show; RasterClose]
          with ([AddPatch 0 p; AddPatch 1 q; Show] ++ [RasterClose]);
        rewrite !app_assoc; apply last_snoc ].
Qed.

(** The script exits (line 122) only for want of image data: after a
    response whose status is not 200 or whose body is empty.  Its last
    output is then the line of cell 5, and no raster was opened. *)
Theorem exit_only_without_image (lf : float → float) (w : World) :
  (main lf w).2 = inl Exit →
  (∃ tok es resp, post w tok es = Ok resp ∧
     (status_code resp ≠ 200%Z ∨ content resp = [])) ∧
  last (main lf w).1
    = Some (Print "No image data available for visualization.") ∧
  filter is_raster_open (main lf w).1 = [].
Proof.
  main_cases w; cell5_cases w; intros [=];
    (split; [eexists _, _, _; split; [eassumption|];
             first [by right | left; by apply Z.eqb_neq]|]);
    (split; [rewrite !app_assoc; apply last_snoc|]);
    rewrite !filter_app, !filter_prints by done; reflexivity.
Qed.

(** A 403 response. *)
Lemma exit_only_without_image_witness :
  last (main log10_ref
          (demo_world demo_environ (Ok "token")
             {| status_code := 403; content := [] |})).1
  = Some (Print "No image data available for visualization.").
Proof.
  apply (exit_only_without_image log10_ref
           (demo_world demo_environ (Ok "token")
              {| status_code := 403; content := [] |})).
  reflexivity.
Defined.

(** Where an uncaught exception can come from: the token exchange (when
    it is not an [Exception]), the evalscript file, the request, the
    opening of the raster, the band math, the shapefile, or the compound
    path of one of the two axes.  Nothing else ends a run early but the
    exit of line 122. *)
Theorem uncaught_origin (lf : float → float) (w : World) (e : exn) :
  (main lf w).2 = inl (Uncaught e) →
  (fetch_token w (environ w "CLIENT_ID") (environ w "CLIENT_SECRET") = Raise e
   ∧ exn_is_Exception e = false)
  ∨ evalscript_js w = Raise e
  ∨ (∃ tok es, post w tok es = Raise e)
  ∨ (∃ img, rasterio_open w img = Raise e)
  ∨ (∃ img src, rasterio_open w img = Ok src ∧ length (bands src) < 3)
  ∨ read_shapefile w = Raise e
  ∨ (∃ shp ax, read_shapefile w = Ok shp ∧ ax < 2 ∧
       compound_path (map_geometry (to_utm w) <$> shp)
         (get_xlim w ax) (get_ylim w ax) = Raise e).
Proof.
  main_cases w; cell5_cases w; intros [=]; subst;
    first
      [ left; by split
      | right; left; done
      | right; right; left; by eauto
      | right; right; right; left; by eauto
      | right; right; right; right; left; eexists _, _;
        split; [eassumption|]; rewrite Hbands; simpl; lia
      | right; right; right; right; right; left; done
      | right; right; right; right; right; right; exists shp, 0;
        split; [done|]; split; [lia|]; done
      | right; right; right; right; right; right; exists shp, 1;
        split; [done|]; split; [lia|]; done ].
Qed.

(** An empty shapefile. *)
Lemma uncaught_origin_witness :
  (fetch_token empty_shapefile_world
     (environ empty_shapefile_world "CLIENT_ID")
     (environ empty_shapefile_world "CLIENT_SECRET") = Raise index_error
   ∧ exn_is_Exception index_error = false)
  ∨ evalscript_js empty_shapefile_world = Raise index_error
  ∨ (∃ tok es, post empty_shapefile_world tok es = Raise index_error)
  ∨ (∃ img, rasterio_open empty_shapefile_world img = Raise index_error)
  ∨ (∃ img src, rasterio_open empty_shapefile_world img = Ok src
       ∧ length (bands src) < 3)
  ∨ read_shapefile empty_shapefile_world = Raise index_error
  ∨ (∃ shp ax, read_shapefile empty_shapefile_world = Ok shp ∧ ax < 2 ∧
       compound_path (map_geometry (to_utm empty_shapefile_world) <$> shp)
         (get_xlim empty_shapefile_world ax)
         (get_ylim empty_shapefile_world ax) = Raise index_error).
Proof.
  apply (uncaught_origin log10_ref empty_shapefile_world index_error).
  vm_compute. reflexivity.
Defined.

(** An exception of the token exchange that is not an [Exception] (a
    [KeyboardInterrupt], say) is not caught by cell 2: the run ends
    there, with no failure line printed and nothing requested. *)
Theorem interrupt_propagates (lf : float → float) (w : World) (e : exn) :
  fetch_token w (environ w "CLIENT_ID") (environ w "CLIENT_SECRET") = Raise e →
  exn_is_Exception e = false →
  main lf w
  = ((cell1 w).1
       ++ [FetchToken (environ w "CLIENT_ID") (environ w "CLIENT_SECRET")],
     inl (Uncaught e)).
Proof.
  intros Hf He. unfold main.
  destruct (cell1_lines w) as (lines & H1).
  rewrite (script_bind_val _ _ _ _ H1). cbn [fst snd].
  rewrite cell2_eq, Hf, He, H1. reflexivity.
Qed.

(** Ctrl-C during the token exchange. *)
Lemma interrupt_propagates_witness :
  main log10_ref
    (world_of (Raise keyboard_interrupt) (Ok "//VERSION=3") (Ok ok_200)
       (Ok scenario) (Ok [Polygon unit_square []]))
  = ([Print "Credentials successfully loaded from .env file.";
      Print "Configuration loaded and ready.";
      FetchToken (Some "my-client") (Some "my-secret")],
     inl (Uncaught keyboard_interrupt)).
Proof.
  apply (interrupt_propagates log10_ref
           (world_of (Raise keyboard_interrupt) (Ok "//VERSION=3")
              (Ok ok_200) (Ok scenario) (Ok [Polygon unit_square []]))
           keyboard_interrupt eq_refl eq_refl).
Defined.

(** When [evalscript.js] cannot be read no request is sent, in any run;
    and when cell 2 ended normally the run ends at the [open] of cell 3
    with its exception. *)
Theorem missing_evalscript_halts (lf : float → float) (w : World) (e : exn) :
  evalscript_js w = Raise e →
  filter is_post (main lf w).1 = [] ∧
  ∀ t2 tok,
    cell2 w (environ w "CLIENT_ID") (environ w "CLIENT_SECRET")
      = (t2, inr tok) →
    main lf w
    = ((cell1 w).1 ++ t2 ++ [ReadFile "evalscript.js"], inl (Uncaught e)).
Proof.
  intros He. split.
  - main_cases w; try congruence;
      rewrite !filter_app, !filter_prints by done; reflexivity.
  - intros t2 tok H2. unfold main.
    destruct (cell1_lines w) as (lines & H1).
    rewrite (script_bind_val _ _ _ _ H1). cbn [fst snd].
    rewrite (script_bind_val _ _ _ _ H2). cbn [fst snd].
    rewrite cell3_eq, He, H1. reflexivity.
Qed.

(** The file is missing. *)
Lemma missing_evalscript_halts_witness :
  filter is_post
    (main log10_ref
       (world_of (Ok "token") (Raise file_not_found) (Ok ok_200)
          (Ok scenario) (Ok [Polygon unit_square []]))).1 = [].
Proof.
  apply (missing_evalscript_halts log10_ref
           (world_of (Ok "token") (Raise file_not_found) (Ok ok_200)
              (Ok scenario) (Ok [Polygon unit_square []]))
           file_not_found eq_refl).
Defined.

(** An exception of the request itself (no response at all) is not
    handled: the run ends at the request, without the failure line of
    cell 4 and without reaching cell 5. *)
Theorem request_error_propagates (lf : float → float) (w : World)
    t2 tok es (e : exn) :
  cell2 w (environ w "CLIENT_ID") (environ w "CLIENT_SECRET") = (t2, inr tok) →
  evalscript_js w = Ok es →
  post w tok es = Raise e →
  cell4 w tok es = ([Post tok], inl (Uncaught e)) ∧
  ∃ t, filter is_post t = [] ∧ filter is_raster_open t = [] ∧
    main lf w = (t ++ [Post tok], inl (Uncaught e)).
Proof.
  intros H2 H3 H4.
  assert (cell4 w tok es = ([Post tok], inl (Uncaught e))) as Hc
    by (by rewrite cell4_eq, H4).
  split; [done|].
  destruct (main_after_cell3 lf w t2 tok es H2 H3) as (t & St & ->).
  exists t. destruct (silent_filter t St) as [-> ->].
  split; [done|]. split; [done|]. by rewrite Hc.
Qed.

(** The connection is refused. *)
Lemma request_error_propagates_witness :
  cell4 (world_of (Ok "token") (Ok "//VERSION=3") (Raise connection_error)
           (Ok scenario) (Ok [Polygon unit_square []]))
        (Some "token") "//VERSION=3"
  = ([Post (Some "token")], inl (Uncaught connection_error)).
Proof.
  apply (request_error_propagates log10_ref
           (world_of (Ok "token") (Ok "//VERSION=3")
              (Raise connection_error) (Ok scenario)
              (Ok [Polygon unit_square []]))
           _ (Some "token") "//VERSION=3" connection_error
           eq_refl eq_refl eq_refl).
Defined.

(** ** The overlay in the run *)

Lemma inner_coords_map f g cs :
  inner_coords g = Ok cs → inner_coords (map_geometry f g) = Ok (f <$> cs).
Proof. destruct g; simpl; intros [= <-]; done. Qed.

(** Whether the compound path can be built does not depend on the axis
    limits, and neither do its codes nor its second subpath. *)
Lemma compound_path_limits shp xlim ylim xlim' ylim' p :
  compound_path shp xlim ylim = Ok p →
  ∃ q, compound_path shp xlim' ylim' = Ok q ∧ codes q = codes p ∧
       drop 5 (vertices q) = drop 5 (vertices p).
Proof.
  destruct shp as [|g rest]; [done|].
  destruct (inner_coords g) as [cs|e'] eqn:Hg.
  2:{ unfold compound_path. cbn [iloc0]. by rewrite Hg. }
  rewrite !(compound_path_single g rest cs _ _ Hg).
  destruct (decide (2 ≤ length cs)); [|done].
  intros [= <-]. eexists. split; [done|]. done.
Qed.

(** The two axes get the same hole or none: a patch is never added to
    one axis only, and the patches of the two axes have the same codes
    and, after the five vertices of their axes rectangles, the same
    vertices. *)
Theorem patches_on_both_axes (lf : float → float) (w : World) (p : Path) :
  AddPatch 0 p ∈ (main lf w).1 →
  ∃ q, AddPatch 1 q ∈ (main lf w).1 ∧ codes q = codes p ∧
       drop 5 (vertices q) = drop 5 (vertices p).
Proof.
  main_cases w; cell5_cases w; intros H; trace_in H;
    injection H as ->;
    match goal with
    | H0 : compound_path ?s ?x0 ?y0 = Ok ?p0,
      H1 : compound_path ?s ?x1 ?y1 = _ |- _ =>
        destruct (compound_path_limits s x0 y0 x1 y1 p0 H0)
          as (q & Hq & Hc & Hv);
        rewrite Hq in H1; try discriminate H1; injection H1 as <-
    end;
    exists q; (split; [trace_mem|done]).
Qed.

(** The run in which every call succeeds. *)
Lemma patches_on_both_axes_witness :
  ∃ q, AddPatch 1 q ∈ (main log10_ref example_world).1 ∧
    codes q = outer_codes ++ inner_codes 5 ∧
    drop 5 (vertices q) = unit_square.
Proof.
  apply (patches_on_both_axes log10_ref example_world
           {| vertices := outer_coords (0, 2)%float (0, 2)%float
                          ++ unit_square;
              codes := outer_codes ++ inner_codes 5 |}).
  apply (list_elem_of_lookup_2 _ 15). vm_compute. reflexivity.
Defined.

(** Cells 4 and 5 on a 200 response with a body that opens as a raster
    of at least three bands. *)
Lemma after_open lf w tok es resp src :
  post w tok es = Ok resp →
  status_code resp = 200%Z →
  content resp ≠ [] →
  rasterio_open w (content resp) = Ok src →
  cell4 w tok es ≫= cell5_script lf w
  = match bands src with
    | f1 :: f2 :: f3 :: _ =>
        match read_shapefile w with
        | Raise e =>
            ([Post tok;
              Print ("Successfully received image data ("
                     +:+ pretty (length (content resp)) +:+ " bytes).")]
               ++ opened w (content resp) src ++ shown lf src f1 f2 f3,
             inl (Uncaught e))
        | Ok shp =>
            match compound_path (map_geometry (to_utm w) <$> shp)
                    (get_xlim w 0) (get_ylim w 0)
            with
            | Raise e =>
                ([Post tok;
                  Print ("Successfully received image data ("
                         +:+ pretty (length (content resp)) +:+ " bytes).")]
                   ++ opened w (content resp) src ++ shown lf src f1 f2 f3,
                 inl (Uncaught e))
            | Ok p0 =>
                match compound_path (map_geometry (to_utm w) <$> shp)
                        (get_xlim w 1) (get_ylim w 1)
                with
                | Raise e =>
                    ([Post tok;
                      Print ("Successfully received image data ("
                             +:+ pretty (length (content resp))
                             +:+ " bytes).")]
                       ++ opened w (content resp) src
                       ++ shown lf src f1 f2 f3 ++ [AddPatch 0 p0],
                     inl (Uncaught e))
                | Ok p1 =>
                    ([Post tok;
                      Print ("Successfully received image data ("
                             +:+ pretty (length (content resp))
                             +:+ " bytes).")]
                       ++ opened w (content resp) src
                       ++ shown lf src f1 f2 f3
                       ++ [AddPatch 0 p0; AddPatch 1 p1; Show; RasterClose],
                     inr (cell5_vars,
                          cell5_heap lf (height src) (width src) f1 f2 f3))
                end
            end
        end
    | _ =>
        ([Post tok;
          Print ("Successfully received image data ("
                 +:+ pretty (length (content resp)) +:+ " bytes).")]
           ++ opened w (content resp) src,
         inl (Uncaught numpy_error))
    end.
Proof.
  intros H4 Hs Hc Ho.
  rewrite script_bind_eq, cell4_eq, H4, Hs. cbn [Z.eqb Pos.eqb fst snd].
  rewrite cell5_script_eq.
  destruct (content resp) as [|b img] eqn:Hb; [done|]. rewrite Ho.
  destruct (bands src) as [|f1 [|f2 [|f3 rest]]]; try reflexivity.
  destruct (read_shapefile w) as [shp|e]; [|reflexivity]. cbv zeta.
  destruct (compound_path _ (get_xlim w 0) (get_ylim w 0)); [|reflexivity].
  destruct (compound_path _ (get_xlim w 1) (get_ylim w 1)); reflexivity.
Qed.

(** The run in which everything succeeds, on a shapefile whose first
    geometry is single-part with at least two coordinates: after the
    request the raster is opened, the two images shown are the display
    arrays of the store (the masked copies, not the dB arrays), the
    shapefile is read, each axis gets its patch, the hole being the
    reprojected coordinates of the first geometry, then the figure is
    shown and the raster closed. *)
Theorem successful_run (lf : float → float) (w : World)
    t2 tok es resp src g gs cs :
  cell2 w (environ w "CLIENT_ID") (environ w "CLIENT_SECRET") = (t2, inr tok) →
  evalscript_js w = Ok es →
  post w tok es = Ok resp →
  status_code resp = 200%Z →
  content resp ≠ [] →
  rasterio_open w (content resp) = Ok src →
  3 ≤ length (bands src) →
  read_shapefile w = Ok (g :: gs) →
  inner_coords g = Ok cs →
  2 ≤ length cs →
  ∃ t v h vv vh,
    filter is_post t = [] ∧ filter is_raster_open t = [] ∧
    cell5 lf src [] = Some (v, h) ∧
    h !! vv_display v = Some (FloatArr vv) ∧
    h !! vh_display v = Some (FloatArr vh) ∧
    main lf w
    = (t ++ [Post tok;
             Print ("Successfully received image data ("
                    +:+ pretty (length (content resp)) +:+ " bytes).");
             RasterOpen (content resp);
             Print ("Opened image with " +:+ pretty (length (bands src))
                    +:+ " bands.");
             Print ("CRS: " +:+ crs_str w src);
             Imshow 0 vv; Imshow 1 vh;
             ReadFile "input/VL_kinrooi_2023.shp";
             AddPatch 0
               {| vertices := outer_coords (get_xlim w 0) (get_ylim w 0)
                              ++ (to_utm w <$> cs);
                  codes := outer_codes ++ inner_codes (length cs) |};
             AddPatch 1
               {| vertices := outer_coords (get_xlim w 1) (get_ylim w 1)
                              ++ (to_utm w <$> cs);
                  codes := outer_codes ++ inner_codes (length cs) |};
             Show; RasterClose],
       inr (v, h)).
Proof.
  intros H2 H3 H4 Hs Hc Ho Hb Hshp Hg Hn.
  destruct (three_bands src Hb) as (f1 & f2 & f3 & rest & Hbands).
  destruct (main_after_cell3 lf w t2 tok es H2 H3) as (t & St & ->).
  destruct (silent_filter t St) as [Hp Hr].
  rewrite (after_open lf w tok es resp src H4 Hs Hc Ho), Hbands, Hshp.
  cbn [fmap list_fmap].
  rewrite !(compound_path_single _ _ _ _ _ (inner_coords_map (to_utm w) g cs Hg)).
  rewrite !length_fmap. destruct (decide (2 ≤ length cs)); [|lia].
  cbn [fst snd].
  exists t. eexists _, _, _, _.
  split; [done|]. split; [done|].
  split; [by apply (cell5_store lf src _ _ _ _ Hbands)|].
  split; [reflexivity|]. split; [reflexivity|]. reflexivity.
Qed.

(** The example run. *)
Lemma successful_run_witness :
  ∃ t v h vv vh,
    filter is_post t = [] ∧ filter is_raster_open t = [] ∧
    cell5 log10_ref scenario [] = Some (v, h) ∧
    h !! vv_display v = Some (FloatArr vv) ∧
    h !! vh_display v = Some (FloatArr vh) ∧
    main log10_ref example_world
    = (t ++ [Post (Some "token");
             Print "Successfully received image data (4 bytes).";
             RasterOpen tiff_magic;
             Print "Opened image with 3 bands.";
             Print "CRS: EPSG:32631";
             Imshow 0 vv; Imshow 1 vh;
             ReadFile "input/VL_kinrooi_2023.shp";
             AddPatch 0
               {| vertices := outer_coords (0, 2)%float (0, 2)%float
                              ++ unit_square;
                  codes := outer_codes ++ inner_codes 5 |};
             AddPatch 1
               {| vertices := outer_coords (0, 2)%float (0, 2)%float
                              ++ unit_square;
                  codes := outer_codes ++ inner_codes 5 |};
             Show; RasterClose],
       inr (v, h)).
Proof.
  apply (successful_run log10_ref example_world _ (Some "token")
           "//VERSION=3" ok_200 scenario (Polygon unit_square []) []
           unit_square eq_refl eq_refl eq_refl eq_refl).
  - done.
  - reflexivity.
  - simpl. lia.
  - reflexivity.
  - reflexivity.
  - simpl. lia.
Defined.

(** A raster with fewer than three bands: the run ends in cell 5 after
    the two lines about the opened image, before anything is drawn. *)
Theorem too_few_bands_halts (lf : float → float) (w : World)
    t2 tok es resp src :
  cell2 w (environ w "CLIENT_ID") (environ w "CLIENT_SECRET") = (t2, inr tok) →
  evalscript_js w = Ok es →
  post w tok es = Ok resp →
  status_code resp = 200%Z →
  content resp ≠ [] →
  rasterio_open w (content resp) = Ok src →
  length (bands src) < 3 →
  ∃ t e, filter is_imshow t = [] ∧
    main lf w
    = (t ++ [RasterOpen (content resp);
             Print ("Opened image with " +:+ pretty (length (bands src))
                    +:+ " bands.");
             Print ("CRS: " +:+ crs_str w src)],
       inl (Uncaught e)).
Proof.
  intros H2 H3 H4 Hs Hc Ho Hb.
  destruct (cell1_lines w) as (lines & H1).
  assert (main lf w
          = ((Print <$> lines) ++ t2 ++ (cell3 w).1
               ++ (cell4 w tok es ≫= cell5_script lf w).1,
             (cell4 w tok es ≫= cell5_script lf w).2)) as ->.
  { unfold main. rewrite (script_bind_val _ _ _ _ H1). cbn [fst snd].
    rewrite (script_bind_val _ _ _ _ H2). cbn [fst snd].
    rewrite (script_bind_eq (cell3 w)), cell3_eq, H3. cbn [fst snd].
    reflexivity. }
  assert (filter is_imshow t2 = []) as Ht2.
  { rewrite cell2_eq in H2.
    destruct (fetch_token w _ _) as [tk|x];
      [|destruct (exn_is_Exception x)]; by injection H2 as <- _. }
  rewrite (after_open lf w tok es resp src H4 Hs Hc Ho).
  rewrite cell3_eq, H3. cbn [fst snd].
  eexists _, numpy_error.
  destruct (bands src) as [|f1 [|f2 [|f3 rest]]]; simpl in Hb; try lia;
    cbn [fst snd]; rewrite !app_assoc; (split; [|reflexivity]);
    rewrite !filter_app, filter_prints, Ht2 by done; reflexivity.
Qed.

(** A raster of two bands. *)
Lemma too_few_bands_halts_witness :
  ∃ t e, filter is_imshow t = [] ∧
    main log10_ref
      (world_of (Ok "token") (Ok "//VERSION=3") (Ok ok_200) (Ok two_bands)
         (Ok [Polygon unit_square []]))
    = (t ++ [RasterOpen tiff_magic;
             Print "Opened image with 2 bands.";
             Print "CRS: EPSG:32631"],
       inl (Uncaught e)).
Proof.
  apply (too_few_bands_halts log10_ref
           (world_of (Ok "token") (Ok "//VERSION=3") (Ok ok_200)
              (Ok two_bands) (Ok [Polygon unit_square []]))
           _ (Some "token") "//VERSION=3" ok_200 two_bands
           eq_refl eq_refl eq_refl eq_refl).
  - done.
  - reflexivity.
  - simpl. lia.
Defined.

(** When the shapefile cannot be read, or the compound path cannot be
    built from it, the run ends with that exception once both images
    have been drawn: the last event is the reading of the shapefile, no
    patch is added and the figure is never shown. *)
Theorem overlay_error_after_display (lf : float → float) (w : World)
    t2 tok es resp src (e : exn) :
  cell2 w (environ w "CLIENT_ID") (environ w "CLIENT_SECRET") = (t2, inr tok) →
  evalscript_js w = Ok es →
  post w tok es = Ok resp →
  status_code resp = 200%Z →
  content resp ≠ [] →
  rasterio_open w (content resp) = Ok src →
  3 ≤ length (bands src) →
  (read_shapefile w = Raise e
   ∨ ∃ shp, read_shapefile w = Ok shp ∧
       compound_path (map_geometry (to_utm w) <$> shp)
         (get_xlim w 0) (get_ylim w 0) = Raise e) →
  ∃ t v h vv vh,
    cell5 lf src [] = Some (v, h) ∧
    h !! vv_display v = Some (FloatArr vv) ∧
    h !! vh_display v = Some (FloatArr vh) ∧
    main lf w
    = (t ++ [RasterOpen (content resp);
             Print ("Opened image with " +:+ pretty (length (bands src))
                    +:+ " bands.");
             Print ("CRS: " +:+ crs_str w src);
             Imshow 0 vv; Imshow 1 vh;
             ReadFile "input/VL_kinrooi_2023.shp"],
       inl (Uncaught e)).
Proof.
  intros H2 H3 H4 Hs Hc Ho Hb Hshp.
  destruct (three_bands src Hb) as (f1 & f2 & f3 & rest & Hbands).
  destruct (main_after_cell3 lf w t2 tok es H2 H3) as (t & St & ->).
  rewrite (after_open lf w tok es resp src H4 Hs Hc Ho), Hbands.
  exists (t ++ [Post tok;
                Print ("Successfully received image data ("
                       +:+ pretty (length (content resp)) +:+ " bytes).")]).
  eexists _, _, _, _.
  split; [by apply (cell5_store lf src _ _ _ _ Hbands)|].
  split; [reflexivity|]. split; [reflexivity|].
  destruct Hshp as [->|(shp & -> & ->)]; cbn [fst snd];
    rewrite <- !app_assoc; reflexivity.
Qed.

(** A shapefile without rows. *)
Lemma overlay_error_after_display_witness :
  ∃ t v h vv vh,
    cell5 log10_ref scenario [] = Some (v, h) ∧
    h !! vv_display v = Some (FloatArr vv) ∧
    h !! vh_display v = Some (FloatArr vh) ∧
    main log10_ref empty_shapefile_world
    = (t ++ [RasterOpen tiff_magic;
             Print "Opened image with 3 bands.";
             Print "CRS: EPSG:32631";
             Imshow 0 vv; Imshow 1 vh;
             ReadFile "input/VL_kinrooi_2023.shp"],
       inl (Uncaught index_error)).
Proof.
  apply (overlay_error_after_display log10_ref empty_shapefile_world
           _ (Some "token") "//VERSION=3" ok_200 scenario index_error
           eq_refl eq_refl eq_refl eq_refl).
  - done.
  - reflexivity.
  - simpl. lia.
  - right. exists []. split; reflexivity.
Defined.

(** The FATAL line is printed exactly when a credential is missing or
    empty, and the line of success exactly when both are there: no other
    output of a run can be taken for either. *)
Theorem fatal_iff_missing (lf : float → float) (w : World) :
  (Print "FATAL: CLIENT_ID or CLIENT_SECRET not found." ∈ (main lf w).1
   ↔ not_str (environ w "CLIENT_ID") = true
     ∨ not_str (environ w "CLIENT_SECRET") = true) ∧
  (Print "Credentials successfully loaded from .env file." ∈ (main lf w).1
   ↔ not_str (environ w "CLIENT_ID") = false
     ∧ not_str (environ w "CLIENT_SECRET") = false).
Proof.
  assert (∃ t r, main lf w = ((cell1 w).1 ++ t, r) ∧
            (Print "FATAL: CLIENT_ID or CLIENT_SECRET not found." ∉ t) ∧
            (Print "Credentials successfully loaded from .env file." ∉ t))
    as (t & r & -> & N1 & N2).
  { main_cases w; cell5_cases w; rewrite H1; cbn [fst]; eexists _, _;
      (split; [reflexivity|]); split; intros H; trace_in H. }
  cbn [fst]. unfold cell1.
  destruct (not_str (environ w "CLIENT_ID")),
           (not_str (environ w "CLIENT_SECRET")); cbn [orb fst];
    (split; (split;
       [ intros H; apply elem_of_app in H as [H|H]; [|done]; trace_in H;
         by eauto
       | intros H;
         first [ by destruct H as [[=] [=]]
               | by destruct H as [[=]|[=]]
               | by destruct H
               | apply elem_of_app; left; trace_mem ] ])).
Qed.

